(** * Documentation index and retrieval engine (mcp_server/docs_index.py,
      mcp_server/docs_tools.py): a shallow embedding and its properties.

    Python values are modelled as follows.
    - [str] is a sequence of Unicode code points ([list N]).
    - [int] is [Z]; [len] is a [nat], injected into [Z] where the code
      does arithmetic on it.
    - [float] timestamps ([st_mtime]) are rationals ([Q]): every finite
      double is a rational and [>] on doubles is [>] on those rationals.
    - [pathlib.Path] is a record of an anchor flag and the path's parts.
    - The filesystem is a read-only record of observations ([FS]).
    - Raised exceptions are the [Err] branch of [result]. *)

From Stdlib Require Import List ZArith NArith QArith Bool Lia.
From Stdlib Require Import String Ascii DecimalString.
From Stdlib Require Import Sorted Permutation.
Import ListNotations.

Set Implicit Arguments.
Local Open Scope Z_scope.

(* ------------------------------------------------------------------ *)
(** ** Python [str] *)
(* ------------------------------------------------------------------ *)

Module Str.

Definition str := list N.

(** A literal of the source, as code points. *)
Definition lit (s : string) : str :=
  List.map N_of_ascii (list_ascii_of_string s).
Arguments lit s%_string.

(** [a == b] *)
Fixpoint eqb (a b : str) : bool :=
  match a, b with
  | [], [] => true
  | x :: a', y :: b' => (x =? y)%N && eqb a' b'
  | _, _ => false
  end.

Definition is_empty (s : str) : bool :=
  match s with [] => true | _ :: _ => false end.

(** [str.isspace] of one code point, the set [str.strip] removes. *)
Definition is_space (c : N) : bool :=
  (((9 <=? c) && (c <=? 13)) || ((28 <=? c) && (c <=? 32))
   || (c =? 133) || (c =? 160) || (c =? 5760)
   || ((8192 <=? c) && (c <=? 8202))
   || (c =? 8232) || (c =? 8233) || (c =? 8239) || (c =? 8287)
   || (c =? 12288))%N.

(** The line boundaries of [str.splitlines]. *)
Definition is_linebreak (c : N) : bool :=
  (((10 <=? c) && (c <=? 13)) || ((28 <=? c) && (c <=? 30))
   || (c =? 133) || (c =? 8232) || (c =? 8233))%N.

Definition CR : N := 13.
Definition LF : N := 10.
Definition HASH : N := 35.
Definition SLASH : N := 47.
Definition DOT : N := 46.

Fixpoint drop_while (p : N -> bool) (s : str) : str :=
  match s with
  | [] => []
  | c :: s' => if p c then drop_while p s' else s
  end.

(** [s.lstrip()] *)
Definition lstrip (s : str) : str := drop_while is_space s.

(** [s.rstrip()] *)
Definition rstrip (s : str) : str := rev (drop_while is_space (rev s)).

(** [s.strip()] *)
Definition strip (s : str) : str := rstrip (lstrip s).

(** [s.lstrip(c)] for a one-character argument. *)
Definition lstrip_char (c : N) (s : str) : str := drop_while (N.eqb c) s.

(** [s.startswith(p)] *)
Fixpoint startswith (s p : str) : bool :=
  match p, s with
  | [], _ => true
  | _ :: _, [] => false
  | a :: p', b :: s' => (a =? b)%N && startswith s' p'
  end.

(** [needle in hay] *)
Fixpoint contains (needle hay : str) : bool :=
  startswith hay needle
  || match hay with
     | [] => false
     | _ :: hay' => contains needle hay'
     end.

(** What [in] decides: [needle] occurs in [hay] as a contiguous run. *)
Definition is_substring (needle hay : str) : Prop :=
  exists pre post, hay = pre ++ needle ++ post.

(** [s.splitlines()]: [cur] is the current line, reversed. *)
Fixpoint splitlines_from (cur : str) (s : str) : list str :=
  match s with
  | [] => if is_empty cur then [] else [rev cur]
  | c :: rest =>
      if is_linebreak c then
        rev cur ::
          match rest with
          | d :: rest' =>
              if ((c =? CR) && (d =? LF))%N
              then splitlines_from [] rest'
              else splitlines_from [] rest
          | [] => splitlines_from [] rest
          end
      else splitlines_from (c :: cur) rest
  end.

Definition splitlines (s : str) : list str := splitlines_from [] s.

(** [sep.join(parts)] *)
Fixpoint join (sep : str) (parts : list str) : str :=
  match parts with
  | [] => []
  | [p] => p
  | p :: ps => p ++ sep ++ join sep ps
  end.

(** ["\n".join(lines)] *)
Definition join_lines (lines : list str) : str := join [LF] lines.

(** [str(n)] and the [{n}] of an f-string, for an [int]. *)
Definition of_Z (n : Z) : str := lit (NilZero.string_of_int (Z.to_int n)).

(** [a < b] on [str]: lexicographic by code point. *)
Fixpoint ltb (a b : str) : bool :=
  match a, b with
  | _, [] => false
  | [], _ :: _ => true
  | x :: a', y :: b' => (x <? y)%N || ((x =? y)%N && ltb a' b')
  end.

Definition leb (a b : str) : bool := negb (ltb b a).

(** [str.lower] restricted to the ASCII letters; the instance used by
    the worked examples. *)
Definition ascii_lower (s : str) : str :=
  List.map (fun c => if ((65 <=? c) && (c <=? 90))%N then (c + 32)%N else c) s.

End Str.

(* ------------------------------------------------------------------ *)
(** ** Python sequences *)
(* ------------------------------------------------------------------ *)

Module Py.

(** The position a slice bound [i] denotes in a sequence of length [n]:
    negative bounds count from the end, and both ends are clamped. *)
Definition slice_index (n : nat) (i : Z) : nat :=
  if i <? 0 then Z.to_nat (Z.max 0 (i + Z.of_nat n))
  else Nat.min (Z.to_nat i) n.

(** [l[lo:hi]] *)
Definition slice {A} (l : list A) (lo hi : Z) : list A :=
  let a := slice_index (List.length l) lo in
  let b := slice_index (List.length l) hi in
  firstn (b - a)%nat (skipn a l).

(** [l[lo:]] *)
Definition slice_from {A} (l : list A) (lo : Z) : list A :=
  let a := slice_index (List.length l) lo in
  skipn a l.

(** [len(l)] as an [int]. *)
Definition len {A} (l : list A) : Z := Z.of_nat (List.length l).

(** [i] when [s.rfind(c)] is [i >= 0], [None] when it is [-1]; [i] is the
    position of the head of [s]. *)
Fixpoint rfind_from (c : N) (i : nat) (s : list N) : option nat :=
  match s with
  | [] => None
  | d :: s' =>
      match rfind_from c (S i) s' with
      | Some j => Some j
      | None => if (c =? d)%N then Some i else None
      end
  end.

Definition rfind (c : N) (s : list N) : option nat := rfind_from c 0 s.

End Py.

(* ------------------------------------------------------------------ *)
(** ** [pathlib.Path] (POSIX flavour) *)
(* ------------------------------------------------------------------ *)

Module Path.
Import Str Py.

(** A path is its parts and whether it starts at a root. POSIX keeps
    exactly two leading slashes as a root of its own, [//], distinct from
    [/]; three slashes or more are the root [/]. A path whose root is [//]
    is anchored and its parts start with an empty part, which no proper
    part is. *)
Record path := mk { anchored : bool; parts : list str }.

(** Whether the root of [p] is [//]. *)
Definition double (p : path) : bool :=
  anchored p && match parts p with [] :: _ => true | _ => false end.

Fixpoint parts_eqb (a b : list str) : bool :=
  match a, b with
  | [], [] => true
  | x :: a', y :: b' => Str.eqb x y && parts_eqb a' b'
  | _, _ => false
  end.

(** [p == q] *)
Definition eqb (p q : path) : bool :=
  Bool.eqb (anchored p) (anchored q) && parts_eqb (parts p) (parts q).

(** The runs between the slashes of [s]; [cur] is the current run,
    reversed. *)
Fixpoint split_slash (cur : str) (s : str) : list str :=
  match s with
  | [] => [rev cur]
  | c :: rest =>
      if (c =? SLASH)%N then rev cur :: split_slash [] rest
      else split_slash (c :: cur) rest
  end.

(** [Path(s)]: empty parts and [.] parts are dropped, [..] is kept; the
    root is [//] when [s] starts with two slashes and not with three. *)
Definition of_str (s : str) : path :=
  {| anchored := startswith s [SLASH];
     parts :=
       (if startswith s [SLASH; SLASH]
           && negb (startswith s [SLASH; SLASH; SLASH])
        then [[]] else [])
       ++ filter (fun c => negb (is_empty c || Str.eqb c [DOT]))
                 (split_slash [] s) |}.

(** [a / b] *)
Definition truediv (a b : path) : path :=
  if anchored b then b
  else {| anchored := anchored a; parts := parts a ++ parts b |}.

(** [str(p)] *)
Definition to_str (p : path) : str :=
  if anchored p then
    if double p then SLASH :: SLASH :: join [SLASH] (tl (parts p))
    else SLASH :: join [SLASH] (parts p)
  else match parts p with
       | [] => [DOT]
       | _ :: _ => join [SLASH] (parts p)
       end.

Fixpoint strip_prefix (pre l : list str) : option (list str) :=
  match pre, l with
  | [], _ => Some l
  | _ :: _, [] => None
  | a :: pre', b :: l' => if Str.eqb a b then strip_prefix pre' l' else None
  end.

(** [p.relative_to(root)]; [None] is the [ValueError] it raises: the
    roots differ, or the parts of [root] do not start those of [p]. *)
Definition relative_to (p root : path) : option path :=
  if Bool.eqb (anchored p) (anchored root)
     && Bool.eqb (double p) (double root) then
    match strip_prefix (parts root) (parts p) with
    | Some r => Some {| anchored := false; parts := r |}
    | None => None
    end
  else None.

(** [p.name] *)
Definition name (p : path) : str := last (parts p) [].

(** [p.suffix] *)
Definition suffix (p : path) : str :=
  let n := name p in
  match rfind DOT n with
  | Some i =>
      if ((0 <? i) && (i <? List.length n - 1))%nat then skipn i n else []
  | None => []
  end.

(** [p.is_absolute()] *)
Definition is_absolute (p : path) : bool := anchored p.

(** A resolved path as [Path.resolve] returns it: absolute, and no part
    is empty, is [.] or holds a slash. *)
Definition wf_part (c : str) : Prop :=
  c <> [] /\ c <> [DOT] /\ ~ In SLASH c.

Definition wf_resolved (p : path) : Prop :=
  anchored p = true /\ Forall wf_part (parts p).

End Path.

(* ------------------------------------------------------------------ *)
(** ** The filesystem, exceptions *)
(* ------------------------------------------------------------------ *)

Import Str Py Path.

(** What the code observes of the filesystem. [rglob_md p] is the
    listing both [p.glob("**/*.md")] and [p.rglob("*.md")] denote, in the
    order the operating system yields it; [None] in [read_text] and
    [st_mtime] is an [OSError]. *)
Record FS := {
  exists_ : path -> bool;
  is_file : path -> bool;
  is_dir : path -> bool;
  rglob_md : path -> list path;
  read_text : path -> option str;
  resolve : path -> path;
  st_mtime : path -> option Q
}.

(** The data a [ValueError] of this code formats into its message. *)
Inductive value_error :=
| UnknownScope (scope : str)
| StartBeyondEnd (start_line : Z) (total_lines : Z)
| EndBeforeStart
| HeaderNotFound (header : str) (header_level : option Z) (scope : str).

Inductive exn :=
| ValueError (e : value_error)
| FileNotFoundError (file : str)
| OSError (p : path).

(** The message of the exceptions [docs_index.py] raises. *)
Definition message (e : exn) : str :=
  match e with
  | ValueError (UnknownScope scope) => lit "Unknown scope: " ++ scope
  | ValueError (StartBeyondEnd start_line total) =>
      lit "start_line " ++ of_Z start_line
      ++ lit " is beyond end of file (file has " ++ of_Z total ++ lit " lines)"
  | ValueError EndBeforeStart => lit "end_line must be >= start_line"
  | FileNotFoundError file => lit "Docs file not found: " ++ file
  | _ => []
  end.

Inductive result (A : Type) :=
| Ok (a : A)
| Err (e : exn).
Arguments Ok {A} a.
Arguments Err {A} e.

Definition bind {A B} (m : result A) (k : A -> result B) : result B :=
  match m with
  | Ok a => k a
  | Err e => Err e
  end.

Declare Scope result_scope.
Delimit Scope result_scope with result.
Notation "x <- m ;; k" := (bind m (fun x => k))
  (at level 61, m at next level, right associativity) : result_scope.

(* ------------------------------------------------------------------ *)
(** ** mcp_server/docs_index.py *)
(* ------------------------------------------------------------------ *)

(** [{"file": ..., "line": ..., "snippet": ...}] *)
Record SearchHit := {
  hit_file : str;
  hit_line : Z;
  hit_snippet : str
}.

(** [{"file", "start_line", "end_line", "content", "line_count"}] *)
Record SectionSlice := {
  sec_file : str;
  sec_start_line : Z;
  sec_end_line : Z;
  sec_content : str;
  sec_line_count : Z
}.

Module DocsIndex.

Local Open Scope result_scope.

(** [SCOPES] *)
Definition SCOPES : list str :=
  [lit "unified"; lit "api"; lit "guides"; lit "python"; lit "node";
   lit "agents"; lit "cookbook"].

(** [key in d] and [d[key]] of a [dict] with [str] keys, kept in
    insertion order. *)
Definition dict_mem {V} (key : str) (d : list (str * V)) : bool :=
  existsb (fun kv => Str.eqb key (fst kv)) d.

Fixpoint dict_get {V} (key : str) (d : list (str * V)) : option V :=
  match d with
  | [] => None
  | (k, v) :: d' => if Str.eqb key k then Some v else dict_get key d'
  end.

(** [v in l] for a list of [str]. *)
Definition list_mem (v : str) (l : list str) : bool :=
  existsb (Str.eqb v) l.

Section WithRepo.

(** [str.lower]: the Unicode case mapping of the interpreter. *)
Variable lower : str -> str.
(** [REPO_ROOT = Path(__file__).resolve().parent.parent] *)
Variable REPO_ROOT : path.
Variable fs : FS.

(** [SCOPE_PATHS] *)
Definition SCOPE_PATHS : list (str * list path) :=
  [(lit "unified", [truediv REPO_ROOT (of_str (lit "openai-docs-unified.md"))]);
   (lit "api", [truediv REPO_ROOT (of_str (lit "openai-docs-api-reference"))]);
   (lit "guides", [truediv REPO_ROOT (of_str (lit "openai-docs-guides"))]);
   (lit "python", [truediv REPO_ROOT (of_str (lit "openai-python-docs"))]);
   (lit "node", [truediv REPO_ROOT (of_str (lit "openai-node-js-docs"))]);
   (lit "agents", [truediv REPO_ROOT (of_str (lit "openai-agents-python-docs"))]);
   (lit "cookbook", [truediv REPO_ROOT (of_str (lit "openai-cookbook"))])].

(** [try: str(p.relative_to(REPO_ROOT)) except ValueError: str(p)] *)
Definition rel_str (p : path) : str :=
  match relative_to p REPO_ROOT with
  | Some rel => to_str rel
  | None => to_str p
  end.

(** The loop of [get_files_for_scope] over the scope's roots. *)
Fixpoint files_of_roots (roots : list path) (files : list path) : list path :=
  match roots with
  | [] => files
  | p :: roots' =>
      if is_file fs p && Str.eqb (suffix p) (lit ".md")
      then files_of_roots roots' (files ++ [p])
      else if is_dir fs p
      then files_of_roots roots' (files ++ rglob_md fs p)
      else files_of_roots roots' files
  end.

Definition get_files_for_scope (scope : str) : result (list path) :=
  if negb (dict_mem scope SCOPE_PATHS) then
    Err (ValueError (UnknownScope scope))
  else
    match dict_get scope SCOPE_PATHS with
    | Some roots => Ok (files_of_roots roots [])
    | None => Err (ValueError (UnknownScope scope))
    end.

(** The loop of [search_in_file] over [enumerate(lines)], from index [i]. *)
Fixpoint scan_lines (file_path : path) (query : str) (i : nat)
    (lines : list str) : list SearchHit :=
  match lines with
  | [] => []
  | line :: rest =>
      if contains (lower query) (lower line) then
        {| hit_file := rel_str file_path;
           hit_line := Z.of_nat i + 1;
           hit_snippet := strip line |}
        :: scan_lines file_path query (S i) rest
      else scan_lines file_path query (S i) rest
  end.

Definition read_text_or_raise (p : path) : result str :=
  match read_text fs p with
  | Some text => Ok text
  | None => Err (OSError p)
  end.

Definition search_in_file (file_path : path) (query : str)
    : result (list SearchHit) :=
  text <- read_text_or_raise file_path ;;
  let lines := splitlines text in
  Ok (scan_lines file_path query 0 lines).

(** The loop of [search_scope] over the files, with its [break]. *)
Fixpoint search_files (files : list path) (query : str) (limit : Z)
    (results : list SearchHit) : result (list SearchHit) :=
  match files with
  | [] => Ok results
  | file :: files' =>
      hits <- search_in_file file query ;;
      let results := results ++ hits in
      if len results >=? limit then Ok results
      else search_files files' query limit results
  end.

Definition search_scope (scope : str) (query : str) (limit : Z)
    : result (list SearchHit) :=
  if is_empty query || is_empty (strip query) then Ok []
  else
    let limit := if limit <=? 0 then 20 else limit in
    files <- get_files_for_scope scope ;;
    results <- search_files files query limit [] ;;
    Ok (slice results 0 limit).

(** The path [read_section] opens: [file], taken under [REPO_ROOT]
    unless it is absolute. *)
Definition docs_path (file : str) : path :=
  let path := of_str file in
  if negb (is_absolute path) then truediv REPO_ROOT path else path.

Definition read_section (file : str) (start_line : Z) (end_line : option Z)
    (max_lines : Z) : result SectionSlice :=
  let path := docs_path file in
  if negb (exists_ fs path) then Err (FileNotFoundError file)
  else
    text <- read_text_or_raise path ;;
    let lines := splitlines text in
    let start_line := if start_line <? 1 then 1 else start_line in
    let start_idx := start_line - 1 in
    if start_idx >=? len lines then
      Err (ValueError (StartBeyondEnd start_line (len lines)))
    else
      end_idx <-
        match end_line with
        | Some end_line =>
            if end_line <? start_line then Err (ValueError EndBeforeStart)
            else Ok (Z.min end_line (len lines))
        | None => Ok (Z.min (start_line - 1 + max_lines) (len lines))
        end ;;
      let slice_lines := slice lines start_idx end_idx in
      let content := join_lines slice_lines in
      let rel_file := rel_str path in
      Ok {| sec_file := rel_file;
            sec_start_line := start_line;
            sec_end_line := end_idx;
            sec_content := content;
            sec_line_count := len slice_lines |}.

End WithRepo.
End DocsIndex.

(* ------------------------------------------------------------------ *)
(** ** mcp_server/docs_tools.py *)
(* ------------------------------------------------------------------ *)

(** The result of [get_last_update_metadata]; [last_modified_iso] is a
    rendering of [last_modified_unix] and is left out. *)
Record LastUpdate := {
  repo_root : str;
  last_modified_unix : Q;
  last_modified_file : str
}.

Module DocsTools.
Import DocsIndex.

Local Open Scope result_scope.

(** [a > b] on timestamps. *)
Definition Qgtb (a b : Q) : bool := negb (Qle_bool a b).

(** [l.sort()] on a list of [str]. *)
Fixpoint insert_sorted (x : str) (l : list str) : list str :=
  match l with
  | [] => [x]
  | y :: l' => if Str.leb x y then x :: l else y :: insert_sorted x l'
  end.

Definition sort (l : list str) : list str := fold_right insert_sorted [] l.

(** [len(stripped) - len(stripped.lstrip("#"))] *)
Definition hash_count_of (stripped : str) : nat :=
  (List.length stripped - List.length (lstrip_char HASH stripped))%nat.

Section WithRepo.

Variable lower : str -> str.
Variable REPO_ROOT : path.
Variable fs : FS.

Let SCOPE_PATHS := DocsIndex.SCOPE_PATHS REPO_ROOT.
Let search_scope := DocsIndex.search_scope lower REPO_ROOT fs.
Let rel_str := DocsIndex.rel_str REPO_ROOT.

Definition search_openai_docs (query : str) (scope : str) (limit : Z)
    : result (list SearchHit) :=
  if negb (list_mem scope SCOPES) then Err (ValueError (UnknownScope scope))
  else
    let query := if is_empty query then [] else strip query in
    if is_empty query then Ok []
    else
      let limit := if limit <=? 0 then 10 else limit in
      search_scope scope query limit.

Definition get_openai_doc_section (file : str) (start_line : Z)
    (end_line : option Z) (max_lines : Z) : result SectionSlice :=
  DocsIndex.read_section REPO_ROOT fs file start_line end_line max_lines.

(** [candidates] of a root; [None] is the [continue] of a root that is
    neither a file nor a directory. *)
Definition candidates_of (root : path) : option (list path) :=
  if is_file fs root then Some [root]
  else if is_dir fs root then Some (rglob_md fs root)
  else None.

(** The innermost loop of [get_last_update_metadata]; the state is
    [(latest_mtime, latest_path)]. *)
Fixpoint scan_mtimes (candidates : list path) (latest : Q * option path)
    : Q * option path :=
  match candidates with
  | [] => latest
  | p :: candidates' =>
      match st_mtime fs p with
      | None => scan_mtimes candidates' latest
      | Some mtime =>
          if Qgtb mtime (fst latest)
          then scan_mtimes candidates' (mtime, Some p)
          else scan_mtimes candidates' latest
      end
  end.

(** [for root in roots: ...] *)
Fixpoint scan_roots (roots : list path) (latest : Q * option path)
    : Q * option path :=
  match roots with
  | [] => latest
  | root :: roots' =>
      match candidates_of root with
      | Some candidates => scan_roots roots' (scan_mtimes candidates latest)
      | None => scan_roots roots' latest
      end
  end.

(** [for roots in SCOPE_PATHS.values(): ...] *)
Fixpoint scan_scopes (values : list (list path)) (latest : Q * option path)
    : Q * option path :=
  match values with
  | [] => latest
  | roots :: values' => scan_scopes values' (scan_roots roots latest)
  end.

Definition get_last_update_metadata : result LastUpdate :=
  let latest := scan_scopes (List.map snd SCOPE_PATHS) (0%Q, None) in
  latest <-
    match snd latest with
    | None =>
        match st_mtime fs REPO_ROOT with
        | Some mtime => Ok (mtime, REPO_ROOT)
        | None => Err (OSError REPO_ROOT)
        end
    | Some latest_path => Ok (fst latest, latest_path)
    end ;;
  Ok {| repo_root := to_str REPO_ROOT;
        last_modified_unix := fst latest;
        last_modified_file := rel_str (snd latest) |}.

(** The inner loop of [list_openai_doc_files]; the state is
    [(seen, files)]. *)
Fixpoint add_unseen (candidate_files : list path)
    (st : list path * list path) : list path * list path :=
  match candidate_files with
  | [] => st
  | p :: rest =>
      let rp := resolve fs p in
      if negb (existsb (Path.eqb rp) (fst st))
      then add_unseen rest (rp :: fst st, snd st ++ [rp])
      else add_unseen rest st
  end.

Fixpoint collect_files (roots : list path) (st : list path * list path)
    : list path * list path :=
  match roots with
  | [] => st
  | root :: roots' =>
      match candidates_of root with
      | Some candidate_files => collect_files roots' (add_unseen candidate_files st)
      | None => collect_files roots' st
      end
  end.

(** [list_openai_doc_files] once the scope's roots are known. *)
Definition doc_files_of_roots (roots : list path) : list str :=
  let files := snd (collect_files roots ([], [])) in
  let result := List.map rel_str files in
  sort result.

Definition list_openai_doc_files (scope : str) : result (list str) :=
  if negb (dict_mem scope SCOPE_PATHS) then
    Err (ValueError (UnknownScope scope))
  else
    match dict_get scope SCOPE_PATHS with
    | Some roots => Ok (doc_files_of_roots roots)
    | None => Err (ValueError (UnknownScope scope))
    end.

(** The first loop of [_extract_section_by_header_from_file], from line
    index [i]: [(start_idx, effective_level)] of the first match. *)
Fixpoint find_header (target_text : str) (header_level : option Z) (i : nat)
    (lines : list str) : option (nat * nat) :=
  match lines with
  | [] => None
  | line :: rest =>
      let stripped := lstrip line in
      if negb (startswith stripped [HASH]) then
        find_header target_text header_level (S i) rest
      else
        let hash_count := hash_count_of stripped in
        if (hash_count <=? 0)%nat then
          find_header target_text header_level (S i) rest
        else
          let text_part := lstrip (slice_from stripped (Z.of_nat hash_count)) in
          if is_empty text_part then
            find_header target_text header_level (S i) rest
          else if match header_level with
                  | Some level => negb (Z.of_nat hash_count =? level)
                  | None => false
                  end
          then find_header target_text header_level (S i) rest
          else if Str.eqb (lower text_part) target_text then Some (i, hash_count)
          else find_header target_text header_level (S i) rest
  end.

(** The second loop, over [range(start_idx + 1, len(lines))]: [lines] is
    what remains from index [j]; [None] when the loop ends without
    [break]. *)
Fixpoint find_end (effective_level : nat) (j : nat) (lines : list str)
    : option nat :=
  match lines with
  | [] => None
  | line :: rest =>
      let stripped := lstrip line in
      if startswith stripped [HASH]
         && (hash_count_of stripped <=? effective_level)%nat
      then Some j
      else find_end effective_level (S j) rest
  end.

(** [_extract_section_by_header_from_file] after the file is read. *)
Definition extract_section_from_lines (relative_file : str)
    (lines : list str) (header : str) (header_level : option Z)
    (max_lines : option Z) : option SectionSlice :=
  let target_text := lower (strip header) in
  match find_header target_text header_level 0 lines with
  | None => None
  | Some (start_idx, effective_level) =>
      let end_idx :=
        match find_end effective_level (S start_idx)
                       (skipn (S start_idx) lines) with
        | Some j => Z.of_nat j
        | None => len lines
        end in
      let end_idx :=
        match max_lines with
        | Some max_lines =>
            if end_idx - Z.of_nat start_idx >? max_lines
            then Z.of_nat start_idx + max_lines
            else end_idx
        | None => end_idx
        end in
      let start_line := Z.of_nat start_idx + 1 in
      let end_line := end_idx in
      let content := join_lines (slice lines (Z.of_nat start_idx) end_idx) in
      Some {| sec_file := relative_file;
              sec_start_line := start_line;
              sec_end_line := end_line;
              sec_content := content;
              sec_line_count := end_line - start_line + 1 |}
  end.

Definition _extract_section_by_header_from_file (relative_file : str)
    (header : str) (header_level : option Z) (max_lines : option Z)
    : result (option SectionSlice) :=
  let path := truediv REPO_ROOT (of_str relative_file) in
  if negb (is_file fs path) then Ok None
  else
    text <- read_text_or_raise fs path ;;
    let lines := splitlines text in
    Ok (extract_section_from_lines relative_file lines header header_level
          max_lines).

(** The loop of [get_openai_doc_section_by_header] over the search
    results. *)
Fixpoint first_section (search_results : list SearchHit) (header : str)
    (header_level : option Z) (max_lines : option Z)
    : result (option SectionSlice) :=
  match search_results with
  | [] => Ok None
  | m :: rest =>
      let relative_file := hit_file m in
      if is_empty relative_file then
        first_section rest header header_level max_lines
      else
        section <- _extract_section_by_header_from_file relative_file header
                     header_level max_lines ;;
        match section with
        | Some s => Ok (Some s)
        | None => first_section rest header header_level max_lines
        end
  end.

Definition get_openai_doc_section_by_header (header : str) (scope : str)
    (header_level : option Z) (max_lines : option Z) : result SectionSlice :=
  if negb (list_mem scope SCOPES) then Err (ValueError (UnknownScope scope))
  else
    search_results <- search_scope scope header 8 ;;
    section <- first_section search_results header header_level max_lines ;;
    match section with
    | Some s => Ok s
    | None => Err (ValueError (HeaderNotFound header header_level scope))
    end.

End WithRepo.
End DocsTools.

(* ------------------------------------------------------------------ *)
(** ** The vocabulary of the properties *)
(* ------------------------------------------------------------------ *)

Module Spec.
Import DocsIndex DocsTools.

(** An empty or whitespace-only query. *)
Definition blank (query : str) : Prop :=
  Forall (fun c => is_space c = true) query.

(** [start_line] after [if start_line < 1: start_line = 1]. *)
Definition clamp_start (start_line : Z) : Z :=
  if start_line <? 1 then 1 else start_line.

(** The lines numbered [a] to [b], both included and counted from 1:
    the range a section is specified to hold. *)
Definition lines_in_range (lines : list str) (a b : Z) : list str :=
  firstn (Z.to_nat (b - a + 1)) (skipn (Z.to_nat (a - 1)) lines).

(** What a section slice must satisfy against the lines of its file. *)
Definition slice_invariant (lines : list str) (s : SectionSlice) : Prop :=
  sec_line_count s = sec_end_line s - sec_start_line s + 1
  /\ 1 <= sec_line_count s
  /\ 1 <= sec_start_line s <= sec_end_line s
  /\ sec_content s =
       join_lines (lines_in_range lines (sec_start_line s) (sec_end_line s))
  /\ len (lines_in_range lines (sec_start_line s) (sec_end_line s)) =
       sec_line_count s.

(** [a <= b] and [a < b] on [str], as propositions. *)
Definition le_str (a b : str) : Prop := Str.leb a b = true.
Definition lt_str (a b : str) : Prop := Str.ltb a b = true.


(** The limit [search_scope] applies. *)
Definition effective_limit (limit : Z) : Z :=
  if limit <=? 0 then 20 else limit.

(** The hits of one file are in top-to-bottom line order. *)
Definition line_order (hits : list SearchHit) : Prop :=
  StronglySorted (fun a b => hit_line a < hit_line b) hits.

(** The hits are in ascending order of the file they name. *)
Definition file_order (hits : list SearchHit) : Prop :=
  StronglySorted (fun a b => le_str (hit_file a) (hit_file b)) hits.

(** The state of the listing loops: [files] holds no path twice and
    [seen] holds the same paths. *)
Definition dedup_inv (st : list path * list path) : Prop :=
  NoDup (snd st) /\ forall x, In x (fst st) <-> In x (snd st).

(** What the first loop takes for a heading line: after left-trimming,
    one or more [#] followed by a non-empty text. The level is the count
    of [#], the text is what follows them, left-trimmed. *)
Definition heading_of (line : str) : option (nat * str) :=
  let stripped := lstrip line in
  if negb (startswith stripped [HASH]) then None
  else
    let hash_count := hash_count_of stripped in
    if (hash_count <=? 0)%nat then None
    else
      let text_part := lstrip (slice_from stripped (Z.of_nat hash_count)) in
      if is_empty text_part then None else Some (hash_count, text_part).

Definition level_ok (header_level : option Z) (level : nat) : bool :=
  match header_level with
  | Some l => Z.of_nat level =? l
  | None => true
  end.

(** The test of the second loop on one line: after left-trimming it
    starts with [#] and has at most [level] of them. *)
Definition ends_section (level : nat) (line : str) : bool :=
  startswith (lstrip line) [HASH] && (hash_count_of (lstrip line) <=? level)%nat.

Fixpoint take_while {A} (p : A -> bool) (l : list A) : list A :=
  match l with
  | [] => []
  | x :: l' => if p x then x :: take_while p l' else []
  end.

(** The line at index [start_idx] and the lines after it up to, and
    without, the first one that [stop] holds of. *)
Definition section_until (stop : str -> bool) (lines : list str)
    (start_idx : nat) : list str :=
  match skipn start_idx lines with
  | [] => []
  | heading :: body => heading :: take_while (fun l => negb (stop l)) body
  end.

(** At most [max_lines] lines from the start. *)
Definition truncate (max_lines : option Z) (section : list str) : list str :=
  match max_lines with
  | Some m => firstn (Z.to_nat m) section
  | None => section
  end.

(** A heading line of level at most [level]: what the specification
    says ends a section. *)
Definition heading_at_most (level : nat) (line : str) : bool :=
  match heading_of line with
  | Some (l, _) => (l <=? level)%nat
  | None => false
  end.

(** The level of a line that starts, after left-trimming, with [#], and
    the text after its leading [#] characters. *)
Definition visible_text (line : str) : option (nat * str) :=
  let stripped := lstrip line in
  if startswith stripped [HASH] then
    let hash_count := hash_count_of stripped in
    Some (hash_count, slice_from stripped (Z.of_nat hash_count))
  else None.

Section WithRepo.

Variable lower : str -> str.
Variable REPO_ROOT : path.
Variable fs : FS.

(** The test of the first loop on one line: the level of the heading when
    the line is a heading that matches. *)
Definition header_match (target_text : str) (header_level : option Z)
    (line : str) : option nat :=
  match heading_of line with
  | Some (level, text_part) =>
      if level_ok header_level level && Str.eqb (lower text_part) target_text
      then Some level else None
  | None => None
  end.

(** The match the specification words: the visible text and the
    requested header are equal once both are trimmed on both sides and
    lower-cased, and the level is the requested one when one is given. *)
Definition claimed_match (header : str) (header_level : option Z)
    (line : str) : bool :=
  match visible_text line with
  | Some (level, visible) =>
      Str.eqb (lower (strip visible)) (lower (strip header))
      && level_ok header_level level
  | None => false
  end.

(** The Markdown files [get_files_for_scope] takes from one root. *)
Definition root_files (p : path) : list path :=
  if is_file fs p && Str.eqb (suffix p) (lit ".md") then [p]
  else if is_dir fs p then rglob_md fs p
  else [].

(** [h] reports a line of [lines] that holds [query], whatever the case
    of the letters: its number counted from 1 and its trimmed text. *)
Definition hit_of_line (p : path) (query : str) (lines : list str)
    (h : SearchHit) : Prop :=
  hit_file h = rel_str REPO_ROOT p
  /\ 1 <= hit_line h
  /\ exists line,
       nth_error lines (Z.to_nat (hit_line h - 1)) = Some line
       /\ is_substring (lower query) (lower line)
       /\ hit_snippet h = strip line.

(** [c] is a candidate file of one of [roots]. *)
Definition candidate (roots : list path) (c : path) : Prop :=
  exists root cands,
    In root roots /\ candidates_of fs root = Some cands /\ In c cands.

(** What a listing of the Markdown files under [roots] must be: the
    external paths of the resolved candidate files, each resolved path
    once, in strictly ascending order. *)
Definition listing_of (roots : list path) (result : list str) : Prop :=
  exists files,
    NoDup files
    /\ (forall f, In f files <-> exists c, candidate roots c /\ f = resolve fs c)
    /\ Permutation result (List.map (rel_str REPO_ROOT) files)
    /\ NoDup result
    /\ StronglySorted lt_str result.

(** The files the walk of [get_last_update_metadata] stats, in the order
    it meets them. *)
Definition walk (roots : list path) : list path :=
  flat_map (fun root => match candidates_of fs root with
                        | Some cands => cands
                        | None => []
                        end) roots.

Definition all_candidates : list path :=
  walk (List.concat (List.map snd (SCOPE_PATHS REPO_ROOT))).

End WithRepo.
End Spec.

(* ------------------------------------------------------------------ *)
(** ** A small repository, for the worked examples *)
(* ------------------------------------------------------------------ *)

Module Example.
Import DocsIndex DocsTools.
Local Open Scope string_scope.

(** A part a resolved path may hold. *)
Definition good_part (c : str) : bool :=
  negb (is_empty c) && negb (Str.eqb c [DOT]) && negb (existsb (N.eqb SLASH) c).

(** [resolve] where nothing is a symlink: the path made absolute from
    the working directory [/repo], without empty or [.] parts. *)
Definition normalize (p : path) : path :=
  {| anchored := true;
     parts := filter good_part
                (if anchored p then parts p else [lit "repo"] ++ parts p) |}.

(** A filesystem given by its regular files (path, text, mtime) and its
    directories (path, Markdown listing, mtime); nothing is a symlink. *)
Fixpoint assoc {V} (p : path) (l : list (path * V)) : option V :=
  match l with
  | [] => None
  | (q, v) :: l' => if Path.eqb p q then Some v else assoc p l'
  end.

Definition is_some {V} (o : option V) : bool :=
  match o with Some _ => true | None => false end.

Definition mkfs (files : list (path * (str * Q)))
    (dirs : list (path * (list path * Q))) : FS :=
  {| exists_ := fun p => is_some (assoc p files) || is_some (assoc p dirs);
     is_file := fun p => is_some (assoc p files);
     is_dir := fun p => is_some (assoc p dirs);
     rglob_md := fun p =>
       match assoc p dirs with Some (l, _) => l | None => [] end;
     read_text := fun p =>
       match assoc p files with Some (t, _) => Some t | None => None end;
     resolve := normalize;
     st_mtime := fun p =>
       match assoc p files with
       | Some (_, m) => Some m
       | None => match assoc p dirs with Some (_, m) => Some m | None => None end
       end |}.

Definition root : path := {| anchored := true; parts := [lit "repo"] |}.

Definition at_root (s : string) : path := truediv root (of_str (lit s)).

Definition nl (lines : list string) : str :=
  join_lines (List.map lit lines).

Definition unified_md : str := lit "openai-docs-unified.md".
Definition unified := at_root "openai-docs-unified.md".
Definition api := at_root "openai-docs-api-reference".
Definition api_a := at_root "openai-docs-api-reference/a.md".
Definition api_b := at_root "openai-docs-api-reference/b.md".

(** One combined file of six lines and an API folder the system lists
    as [b.md], [a.md]. *)
Definition fs1 : FS :=
  mkfs [(unified,
         (nl ["# Guide"; "Some Text here"; "#"; "  text again  ";
              "## Intro "; "body"], 7%Q));
        (api_a, (nl ["alpha text"], 3%Q));
        (api_b, (nl ["beta"; "more Text"], 3%Q))]
       [(root, ([], 9%Q)); (api, ([api_b; api_a], 2%Q))].

Definition guide_lines : list str :=
  List.map lit ["# Guide"; "Some Text here"; "#"; "  text again  ";
                "## Intro "; "body"].

Definition ten_lines : list str :=
  List.map lit ["l1"; "l2"; "l3"; "l4"; "l5"; "l6"; "l7"; "l8"; "l9"; "l10"].

Definition api_a_md : str := lit "openai-docs-api-reference/a.md".
Definition api_b_md : str := lit "openai-docs-api-reference/b.md".

(** The same combined file, last modified at the epoch. *)
Definition fs_epoch : FS :=
  mkfs [(unified, (nl ["# Intro"; "text"], 0%Q))]
       [(root, ([], 9%Q))].

(** A ten-line file. *)
Definition fs_ten : FS :=
  mkfs [(unified,
         (nl ["l1"; "l2"; "l3"; "l4"; "l5"; "l6"; "l7"; "l8"; "l9"; "l10"], 1%Q))]
       [(root, ([], 9%Q))].

(** The combined file, empty: it has no line. *)
Definition fs_empty : FS :=
  mkfs [(unified, ([], 1%Q))]
       [(root, ([], 9%Q))].

End Example.

(* ------------------------------------------------------------------ *)
(** ** More small repositories *)
(* ------------------------------------------------------------------ *)

Module ExampleMore.
Import DocsIndex DocsTools Example.
Local Open Scope string_scope.

(** A filesystem whose listed files need not be readable: [None] for the
    text of a file is a file that cannot be read. *)
Definition mkfs_opt (files : list (path * (option str * Q)))
    (dirs : list (path * (list path * Q))) : FS :=
  {| exists_ := fun p => is_some (assoc p files) || is_some (assoc p dirs);
     is_file := fun p => is_some (assoc p files);
     is_dir := fun p => is_some (assoc p dirs);
     rglob_md := fun p =>
       match assoc p dirs with Some (l, _) => l | None => [] end;
     read_text := fun p =>
       match assoc p files with Some (t, _) => t | None => None end;
     resolve := normalize;
     st_mtime := fun p =>
       match assoc p files with
       | Some (_, m) => Some m
       | None => match assoc p dirs with Some (_, m) => Some m | None => None end
       end |}.

(** The API folder of [fs1] with [a.md] unreadable. *)
Definition fs_locked : FS :=
  mkfs_opt [(api_a, (None, 3%Q));
            (api_b, (Some (nl ["beta"; "more Text"]), 3%Q))]
           [(root, ([], 9%Q)); (api, ([api_b; api_a], 2%Q))].


Definition far_a := at_root "openai-docs-api-reference/a.md".
Definition far_b := at_root "openai-docs-api-reference/b.md".

(** An API folder whose first file mentions the word of a heading on
    eight lines and whose second file holds the heading. *)
Definition fs_far : FS :=
  mkfs [(far_a,
         (nl ["see intro"; "the intro"; "intro 3"; "intro 4"; "intro 5";
              "intro 6"; "intro 7"; "intro 8"], 3%Q));
        (far_b, (nl ["# Intro"; "the section"], 3%Q))]
       [(root, ([], 9%Q)); (api, ([far_a; far_b], 2%Q))].

End ExampleMore.

(* ------------------------------------------------------------------ *)
(** ** mcp_server/docs_tools.py: the scope listing *)
(* ------------------------------------------------------------------ *)

Module DocsToolsMore.
Import DocsIndex.

(** [list_scopes] *)
Definition list_scopes : list str := SCOPES.

End DocsToolsMore.

(* ================================================================== *)
(** * Properties *)
(* ================================================================== *)

(** ** Strings and sequences *)

Module StrFacts.
Import Str Py.

Lemma eqb_eq (a b : str) : Str.eqb a b = true <-> a = b.
Proof.
  revert b. induction a as [|x a IH]; intros [|y b]; simpl;
    try (split; intros; congruence).
  rewrite andb_true_iff, N.eqb_eq, IH. split.
  - intros [-> ->]. reflexivity.
  - intros H. injection H as -> ->. auto.
Qed.

Lemma eqb_refl (a : str) : Str.eqb a a = true.
Proof. apply eqb_eq; reflexivity. Qed.

Lemma eqb_neq (a b : str) : Str.eqb a b = false <-> a <> b.
Proof.
  rewrite <- eqb_eq. destruct (Str.eqb a b); split; intros; congruence.
Qed.

Lemma parts_eqb_eq (a b : list str) : Path.parts_eqb a b = true <-> a = b.
Proof.
  revert b. induction a as [|x a IH]; intros [|y b]; simpl;
    try (split; intros; congruence).
  rewrite andb_true_iff, eqb_eq, IH. split.
  - intros [-> ->]. reflexivity.
  - intros H. injection H as -> ->. auto.
Qed.

Lemma path_eqb_eq (p q : Path.path) : Path.eqb p q = true <-> p = q.
Proof.
  unfold Path.eqb. destruct p as [a1 l1], q as [a2 l2]. simpl.
  rewrite andb_true_iff, parts_eqb_eq, Bool.eqb_true_iff. split.
  - intros [-> ->]. reflexivity.
  - intros H. injection H as -> ->. auto.
Qed.

Lemma is_empty_nil (s : str) : is_empty s = true <-> s = [].
Proof. destruct s; simpl; split; intros; congruence. Qed.

Lemma startswith_prefix (p s : str) :
  startswith s p = true <-> exists post, s = p ++ post.
Proof.
  revert s; induction p as [|a p IH]; intros s.
  - split; [intros _; exists s; reflexivity | destruct s; reflexivity].
  - destruct s as [|b s]; simpl.
    + split; [discriminate | intros [post H]; discriminate].
    + rewrite andb_true_iff, N.eqb_eq, IH. split.
      * intros [-> [post ->]]. exists post; reflexivity.
      * intros [post H]. injection H as -> ->. split; eauto.
Qed.

(** [in] decides the contiguous-occurrence relation. *)
Lemma contains_substring (needle hay : str) :
  contains needle hay = true <-> is_substring needle hay.
Proof.
  unfold is_substring. induction hay as [|c hay IH].
  - change (contains needle []) with (startswith [] needle || false).
    rewrite orb_false_r, startswith_prefix. split.
    + intros [post H]. exists [], post. exact H.
    + intros [pre [post H]]. destruct pre; simpl in H.
      * exists post; exact H.
      * discriminate.
  - change (contains needle (c :: hay))
      with (startswith (c :: hay) needle || contains needle hay).
    rewrite orb_true_iff, startswith_prefix, IH. split.
    + intros [[post H] | [pre [post H]]].
      * exists [], post. exact H.
      * exists (c :: pre), post. simpl. f_equal. exact H.
    + intros [pre [post H]]. destruct pre as [|d pre]; simpl in H.
      * left. exists post; exact H.
      * right. injection H as _ H. exists pre, post. exact H.
Qed.

Lemma drop_while_all (p : N -> bool) (s : str) :
  Forall (fun c => p c = true) s -> drop_while p s = [].
Proof.
  induction 1 as [|c s Hc _ IH]; simpl; [reflexivity|].
  rewrite Hc. exact IH.
Qed.

(** [s.strip()] is empty for an empty or all-whitespace [s]. *)
Lemma strip_blank (s : str) :
  Forall (fun c => is_space c = true) s -> strip s = [].
Proof.
  intros H. unfold strip, lstrip, rstrip.
  rewrite (drop_while_all _ H). reflexivity.
Qed.

Lemma slice_index_nonneg (n : nat) (i : Z) :
  0 <= i -> slice_index n i = Nat.min (Z.to_nat i) n.
Proof.
  intros H. unfold slice_index.
  destruct (i <? 0) eqn:E; [apply Z.ltb_lt in E; lia | reflexivity].
Qed.

(** A slice whose bounds are non-negative is the [firstn] of a [skipn]. *)
Lemma slice_nonneg {A} (l : list A) (lo hi : Z) :
  0 <= lo -> 0 <= hi ->
  slice l lo hi = firstn (Z.to_nat hi - Z.to_nat lo) (skipn (Z.to_nat lo) l).
Proof.
  intros Hlo Hhi. unfold slice.
  rewrite !slice_index_nonneg by assumption.
  set (n := List.length l). set (a := Z.to_nat lo). set (b := Z.to_nat hi).
  destruct (Nat.le_gt_cases a n) as [Ha | Ha].
  - rewrite (Nat.min_l a n) by exact Ha.
    destruct (Nat.le_gt_cases b n) as [Hb | Hb].
    + rewrite (Nat.min_l b n) by exact Hb. reflexivity.
    + rewrite (Nat.min_r b n) by lia.
      rewrite !firstn_all2; try reflexivity; rewrite length_skipn; fold n; lia.
  - rewrite (Nat.min_r a n) by lia.
    rewrite !skipn_all2 by (fold n; lia).
    rewrite !firstn_nil. reflexivity.
Qed.

Lemma slice_length {A} (l : list A) (lo hi : Z) :
  0 <= lo <= hi -> hi <= len l ->
  len (slice l lo hi) = hi - lo.
Proof.
  intros Hlo Hhi. unfold len in *.
  rewrite slice_nonneg by lia.
  rewrite length_firstn, length_skipn. lia.
Qed.

Lemma slice_from_nat {A} (l : list A) (n : nat) :
  slice_from l (Z.of_nat n) = skipn n l.
Proof.
  unfold slice_from. rewrite slice_index_nonneg by lia.
  rewrite Nat2Z.id.
  destruct (Nat.le_gt_cases n (List.length l)) as [H | H].
  - rewrite Nat.min_l by exact H. reflexivity.
  - rewrite Nat.min_r by lia. rewrite !skipn_all2 by lia. reflexivity.
Qed.

(** *** The order of [str] *)

Lemma ltb_cons (x y : N) (a b : str) :
  Str.ltb (x :: a) (y :: b) = true <->
  (x < y)%N \/ (x = y /\ Str.ltb a b = true).
Proof.
  simpl. rewrite orb_true_iff, andb_true_iff, N.ltb_lt, N.eqb_eq. reflexivity.
Qed.

Lemma ltb_irrefl (a : str) : Str.ltb a a = false.
Proof.
  induction a as [|x a IH]; [reflexivity|].
  apply not_true_is_false. rewrite ltb_cons. intros [H | [_ H]]; [lia|congruence].
Qed.

Lemma ltb_trans (a b c : str) :
  Str.ltb a b = true -> Str.ltb b c = true -> Str.ltb a c = true.
Proof.
  revert b c. induction a as [|x a IH]; intros [|y b] [|z c]; simpl; try congruence.
  intros H1 H2. apply ltb_cons in H1. apply ltb_cons in H2. apply ltb_cons.
  destruct H1 as [H1 | [-> H1]], H2 as [H2 | [-> H2]].
  - left; lia.
  - left; lia.
  - left; lia.
  - right. split; [reflexivity|]. exact (IH _ _ H1 H2).
Qed.

Lemma ltb_total (a b : str) :
  Str.ltb a b = true \/ a = b \/ Str.ltb b a = true.
Proof.
  revert b. induction a as [|x a IH]; intros [|y b]; simpl; auto.
  destruct (N.lt_total x y) as [H | [-> | H]].
  - left. apply N.ltb_lt in H. rewrite H. reflexivity.
  - rewrite N.ltb_irrefl, N.eqb_refl. simpl.
    destruct (IH b) as [H | [-> | H]]; auto.
  - right. right. apply N.ltb_lt in H. rewrite H. reflexivity.
Qed.

Lemma ltb_asym (a b : str) : Str.ltb a b = true -> Str.ltb b a = false.
Proof.
  intros H. apply not_true_is_false. intros H'.
  pose proof (ltb_trans _ _ _ H H') as Hc. rewrite ltb_irrefl in Hc. discriminate.
Qed.

Lemma leb_total (a b : str) : Str.leb a b = true \/ Str.leb b a = true.
Proof.
  unfold Str.leb. destruct (Str.ltb b a) eqn:E; [|left; reflexivity].
  right. rewrite (ltb_asym _ _ E). reflexivity.
Qed.

Lemma leb_trans (a b c : str) :
  Str.leb a b = true -> Str.leb b c = true -> Str.leb a c = true.
Proof.
  unfold Str.leb. rewrite !negb_true_iff. intros H1 H2.
  apply not_true_is_false. intros H3.
  destruct (ltb_total a b) as [H | [-> | H]]; [|congruence|congruence].
  pose proof (ltb_trans _ _ _ H3 H). congruence.
Qed.

Lemma leb_neq_ltb (a b : str) : Str.leb a b = true -> a <> b -> Str.ltb a b = true.
Proof.
  unfold Str.leb. rewrite negb_true_iff. intros H Hne.
  destruct (ltb_total a b) as [H' | [-> | H']]; congruence.
Qed.

End StrFacts.

(** ** The search and section operations *)

Module DocsFacts.
Import Str Py Path DocsIndex DocsTools Spec StrFacts.

Lemma list_mem_In (v : str) (l : list str) : list_mem v l = true <-> In v l.
Proof.
  unfold list_mem. rewrite existsb_exists. split.
  - intros [x [Hin Heq]]. apply eqb_eq in Heq. subst. exact Hin.
  - intros H. exists v. split; [exact H | apply eqb_refl].
Qed.

Lemma list_mem_not_In (v : str) (l : list str) :
  list_mem v l = false <-> ~ In v l.
Proof.
  rewrite <- list_mem_In. destruct (list_mem v l); split; intros; congruence.
Qed.

Section WithRepo.

Variable lower : str -> str.
Variable REPO_ROOT : path.
Variable fs : FS.

Local Abbreviation search_scope := (DocsIndex.search_scope lower REPO_ROOT fs).
Local Abbreviation search_openai_docs := (DocsTools.search_openai_docs lower REPO_ROOT fs).
Local Abbreviation read_section := (DocsIndex.read_section REPO_ROOT fs).
Local Abbreviation docs_path := (DocsIndex.docs_path REPO_ROOT).
Local Abbreviation header_match := (Spec.header_match lower).
Local Abbreviation root_files := (Spec.root_files fs).
Local Abbreviation hit_of_line := (Spec.hit_of_line lower REPO_ROOT).

Lemma blank_query_test (query : str) :
  blank query -> is_empty query || is_empty (strip query) = true.
Proof.
  intros H. rewrite (strip_blank H). apply orb_true_r.
Qed.

(** C8. With an empty or whitespace-only query, [search_scope] returns the
    empty list for every scope string, recognised or not, and raises
    nothing: the query is tested before the scope is looked up. The tool
    [search_openai_docs] tests the scope first: on an unrecognised scope
    it raises [ValueError] whatever the query is, blank or not, and on a
    recognised one it returns the empty list for such a query. *)
Theorem search_blank_query (scope query : str) (limit : Z) :
  blank query ->
  search_scope scope query limit = Ok []
  /\ (~ In scope SCOPES ->
      forall q, search_openai_docs q scope limit
                = Err (ValueError (UnknownScope scope)))
  /\ (In scope SCOPES -> search_openai_docs query scope limit = Ok []).
Proof.
  intros Hq. split; [|split].
  - unfold DocsIndex.search_scope. rewrite (blank_query_test Hq). reflexivity.
  - intros Hs q. apply list_mem_not_In in Hs.
    unfold DocsTools.search_openai_docs. rewrite Hs. reflexivity.
  - intros Hs. apply list_mem_In in Hs.
    unfold DocsTools.search_openai_docs. rewrite Hs. simpl.
    rewrite (strip_blank Hq). destruct (is_empty query); reflexivity.
Qed.

(** *** [read_section] *)

Lemma clamp_start_max (start_line : Z) : clamp_start start_line = Z.max 1 start_line.
Proof. unfold clamp_start. destruct (start_line <? 1) eqn:E; lia. Qed.

Lemma read_section_missing (file : str) (start_line : Z) (end_line : option Z)
    (max_lines : Z) :
  exists_ fs (docs_path file) = false ->
  read_section file start_line end_line max_lines = Err (FileNotFoundError file).
Proof.
  intros H. unfold DocsIndex.read_section. rewrite H. reflexivity.
Qed.

(** [read_section] on a file that exists and can be read, as a function
    of the file's lines. *)
Lemma read_section_lines (file : str) (start_line : Z) (end_line : option Z)
    (max_lines : Z) (text : str) :
  exists_ fs (docs_path file) = true ->
  read_text fs (docs_path file) = Some text ->
  read_section file start_line end_line max_lines =
    let lines := splitlines text in
    let start_line := clamp_start start_line in
    if start_line - 1 >=? len lines then
      Err (ValueError (StartBeyondEnd start_line (len lines)))
    else
      bind (match end_line with
            | Some end_line =>
                if end_line <? start_line then Err (ValueError EndBeforeStart)
                else Ok (Z.min end_line (len lines))
            | None => Ok (Z.min (start_line - 1 + max_lines) (len lines))
            end)
           (fun end_idx =>
              Ok {| sec_file := DocsIndex.rel_str REPO_ROOT (docs_path file);
                    sec_start_line := start_line;
                    sec_end_line := end_idx;
                    sec_content := join_lines (slice lines (start_line - 1) end_idx);
                    sec_line_count := len (slice lines (start_line - 1) end_idx) |}).
Proof.
  intros He Ht. unfold DocsIndex.read_section, read_text_or_raise.
  rewrite He, Ht. reflexivity.
Qed.

(** C7, amended. [read_section] raises [FileNotFoundError] when the path
    it resolves does not exist. On a file that exists and is read: when
    the start line, clamped up to 1, exceeds the file's line count it
    raises a [ValueError] whose message names the clamped start line and
    the line count; the clamped start line is the requested one whenever
    that is at least 1, and is 1 otherwise. When a supplied end line is
    less than the start line it raises a [ValueError], the one for the end
    line if the start line is within the file. An outcome that is an
    exception is not a result. *)
Theorem read_section_failures (file : str) (start_line : Z)
    (end_line : option Z) (max_lines : Z) :
  let r := read_section file start_line end_line max_lines in
  (exists_ fs (docs_path file) = false -> r = Err (FileNotFoundError file))
  /\ (forall text,
        exists_ fs (docs_path file) = true ->
        read_text fs (docs_path file) = Some text ->
        let total := len (splitlines text) in
        let start := Z.max 1 start_line in
        (total < start ->
           r = Err (ValueError (StartBeyondEnd start total))
           /\ (1 <= start_line -> start = start_line)
           /\ message (ValueError (StartBeyondEnd start total)) =
                lit "start_line " ++ of_Z start
                ++ lit " is beyond end of file (file has " ++ of_Z total
                ++ lit " lines)")
        /\ (forall e, end_line = Some e -> e < start_line ->
              exists v, r = Err (ValueError v))
        /\ (forall e, end_line = Some e -> e < start -> start <= total ->
              r = Err (ValueError EndBeforeStart)))
  /\ (forall e, r = Err e -> forall s, r <> Ok s).
Proof.
  intros r. split; [|split].
  - apply read_section_missing.
  - intros text He Ht total start. subst r.
    rewrite (@read_section_lines file start_line end_line max_lines text He Ht).
    cbv zeta.
    rewrite clamp_start_max. fold total. fold start.
    split; [|split].
    + intros Hlt. split; [|split; [subst start; lia | reflexivity]].
      destruct (start - 1 >=? total) eqn:E; [reflexivity|].
      rewrite Z.geb_leb in E. apply Z.leb_gt in E. lia.
    + intros e -> Hlt.
      destruct (start - 1 >=? total) eqn:E; [eauto|].
      assert (Hes : (e <? start) = true) by (apply Z.ltb_lt; lia).
      rewrite Hes. simpl. eauto.
    + intros e -> Hlt Hle.
      destruct (start - 1 >=? total) eqn:E.
      * rewrite Z.geb_leb in E. apply Z.leb_le in E. lia.
      * assert (Hes : (e <? start) = true) by (apply Z.ltb_lt; lia).
        rewrite Hes. reflexivity.
  - intros e He s Hs. congruence.
Qed.

Lemma lines_in_range_slice (lines : list str) (a b : Z) :
  1 <= a -> 0 <= b ->
  slice lines (a - 1) b = lines_in_range lines a b.
Proof.
  intros Ha Hb. rewrite slice_nonneg by lia. unfold lines_in_range.
  f_equal. lia.
Qed.

Lemma lines_in_range_length (lines : list str) (a b : Z) :
  1 <= a -> a - 1 <= b -> b <= len lines ->
  len (lines_in_range lines a b) = b - a + 1.
Proof.
  intros Ha Hab Hb. unfold len in *. unfold lines_in_range.
  rewrite length_firstn, length_skipn. lia.
Qed.

(** [read_section] on a readable file whose start line is within the
    file and whose effective end is not negative: the slice is the range
    of lines from the start line to the effective end. *)
Lemma read_section_range (file : str) (start_line : Z) (end_line : option Z)
    (max_lines : Z) (text : str) :
  exists_ fs (docs_path file) = true ->
  read_text fs (docs_path file) = Some text ->
  let lines := splitlines text in
  let total := len lines in
  1 <= start_line <= total ->
  let effective_end :=
    match end_line with
    | Some e => Z.min e total
    | None => Z.min (start_line - 1 + max_lines) total
    end in
  match end_line with
  | Some e => start_line <= e
  | None => 0 <= start_line - 1 + max_lines
  end ->
  read_section file start_line end_line max_lines =
    Ok {| sec_file := DocsIndex.rel_str REPO_ROOT (docs_path file);
          sec_start_line := start_line;
          sec_end_line := effective_end;
          sec_content := join_lines (lines_in_range lines start_line effective_end);
          sec_line_count := len (lines_in_range lines start_line effective_end) |}.
Proof.
  intros He Ht lines total Hs effective_end Hend.
  rewrite (@read_section_lines file start_line end_line max_lines text He Ht).
  cbv zeta. fold lines. fold total.
  assert (Hc : clamp_start start_line = start_line)
    by (rewrite clamp_start_max; lia).
  rewrite Hc.
  destruct (start_line - 1 >=? total) eqn:E.
  { rewrite Z.geb_leb in E. apply Z.leb_le in E. lia. }
  destruct end_line as [e|].
  - assert (Hes : (e <? start_line) = false) by (apply Z.ltb_ge; lia).
    rewrite Hes. simpl. subst effective_end.
    rewrite lines_in_range_slice by lia. reflexivity.
  - simpl. subst effective_end.
    rewrite lines_in_range_slice by lia. reflexivity.
Qed.

(** *** The header extractor *)

Local Abbreviation find_header := (DocsTools.find_header lower).
Local Abbreviation extract_section_from_lines :=
  (DocsTools.extract_section_from_lines lower).
Local Abbreviation extract_section_by_header_from_file :=
  (DocsTools._extract_section_by_header_from_file lower REPO_ROOT fs).

Lemma find_header_cons (target_text : str) (header_level : option Z) (i : nat)
    (line : str) (rest : list str) :
  find_header target_text header_level i (line :: rest) =
    match header_match target_text header_level line with
    | Some level => Some (i, level)
    | None => find_header target_text header_level (S i) rest
    end.
Proof.
  unfold header_match, heading_of. simpl.
  destruct (negb (startswith (lstrip line) [HASH])); [reflexivity|].
  destruct (hash_count_of (lstrip line) <=? 0)%nat; [reflexivity|].
  destruct (is_empty _); [reflexivity|].
  unfold level_ok. destruct header_level as [l|]; simpl.
  - destruct (Z.of_nat (hash_count_of (lstrip line)) =? l); simpl; [|reflexivity].
    destruct (Str.eqb _ target_text); reflexivity.
  - destruct (Str.eqb _ target_text); reflexivity.
Qed.

(** The first loop stops at the first line, top to bottom, that the test
    accepts. *)
Lemma find_header_first (target_text : str) (header_level : option Z)
    (lines : list str) (i k level : nat) :
  find_header target_text header_level i lines = Some (k, level) <->
  exists pre line post,
    lines = pre ++ line :: post
    /\ k = (i + List.length pre)%nat
    /\ header_match target_text header_level line = Some level
    /\ Forall (fun l => header_match target_text header_level l = None) pre.
Proof.
  revert i. induction lines as [|l lines IH]; intros i.
  - simpl. split; [discriminate|].
    intros [pre [line [post [H _]]]]. destruct pre; discriminate.
  - rewrite find_header_cons.
    destruct (header_match target_text header_level l) as [lv|] eqn:E.
    + split.
      * intros H. injection H as <- <-.
        exists [], l, lines. simpl. repeat split; auto; lia.
      * intros [pre [line [post [Hl [Hk [Hm Hpre]]]]]].
        destruct pre as [|x pre]; simpl in Hl; injection Hl as <- ->.
        -- simpl in Hk. rewrite Hm in E. injection E as ->.
           f_equal. f_equal. lia.
        -- inversion Hpre; congruence.
    + rewrite IH. split.
      * intros [pre [line [post [Hl [Hk [Hm Hpre]]]]]].
        exists (l :: pre), line, post. subst lines. simpl.
        repeat split; auto; lia.
      * intros [pre [line [post [Hl [Hk [Hm Hpre]]]]]].
        destruct pre as [|x pre]; simpl in Hl; injection Hl as <- ->.
        -- congruence.
        -- exists pre, line, post. inversion Hpre; subst.
           simpl. repeat split; auto; lia.
Qed.

Lemma find_header_none (target_text : str) (header_level : option Z)
    (lines : list str) (i : nat) :
  find_header target_text header_level i lines = None <->
  Forall (fun l => header_match target_text header_level l = None) lines.
Proof.
  revert i. induction lines as [|l lines IH]; intros i.
  - simpl. split; auto.
  - rewrite find_header_cons.
    destruct (header_match target_text header_level l) as [lv|] eqn:E.
    + split; [discriminate|]. intros H. inversion H; congruence.
    + rewrite IH. split; [intros H; constructor; assumption|].
      intros H. inversion H; assumption.
Qed.

Lemma header_match_level (target_text : str) (header_level : option Z)
    (line : str) (level : nat) :
  header_match target_text header_level line = Some level ->
  (0 < level)%nat /\ level_ok header_level level = true.
Proof.
  unfold header_match, heading_of.
  destruct (negb (startswith (lstrip line) [HASH])); [discriminate|].
  destruct (hash_count_of (lstrip line) <=? 0)%nat eqn:E; [discriminate|].
  destruct (is_empty _); [discriminate|].
  destruct (level_ok header_level _) eqn:El; simpl; [|discriminate].
  destruct (Str.eqb _ _); [|discriminate].
  intros H. injection H as <-. apply Nat.leb_gt in E. auto.
Qed.

Lemma take_while_prefix {A} (p : A -> bool) (l : list A) :
  firstn (List.length (take_while p l)) l = take_while p l.
Proof.
  induction l as [|x l IH]; simpl; [reflexivity|].
  destruct (p x); simpl; [f_equal; exact IH | reflexivity].
Qed.

Lemma take_while_length {A} (p : A -> bool) (l : list A) :
  (List.length (take_while p l) <= List.length l)%nat.
Proof.
  induction l as [|x l IH]; simpl; [lia|].
  destruct (p x); simpl; lia.
Qed.

(** Where the second loop leaves [end_idx]. *)
Lemma find_end_take_while (level j : nat) (lines : list str) :
  match find_end level j lines with
  | Some k => k
  | None => (j + List.length lines)%nat
  end = (j + List.length (take_while (fun l => negb (ends_section level l)) lines))%nat.
Proof.
  revert j. induction lines as [|l lines IH]; intros j; simpl; [reflexivity|].
  unfold ends_section at 1.
  destruct (startswith (lstrip l) [HASH] && (hash_count_of (lstrip l) <=? level)%nat);
    simpl.
  - lia.
  - specialize (IH (S j)).
    destruct (find_end level (S j) lines); simpl in *; lia.
Qed.

Lemma section_until_split (stop : str -> bool) (pre post : list str) (line : str) :
  section_until stop (pre ++ line :: post) (List.length pre) =
    line :: take_while (fun l => negb (stop l)) post.
Proof.
  unfold section_until.
  rewrite skipn_app, skipn_all, Nat.sub_diag. reflexivity.
Qed.

Lemma truncate_length (max_lines : option Z) (section : list str) :
  (forall m, max_lines = Some m -> 0 <= m) ->
  len (truncate max_lines section) =
    match max_lines with
    | Some m => Z.min m (len section)
    | None => len section
    end.
Proof.
  intros H. destruct max_lines as [m|]; simpl; [|reflexivity].
  specialize (H m eq_refl). unfold len. rewrite length_firstn. lia.
Qed.

(** The section the extractor returns once its first loop has found the
    heading at index [start_idx] with level [level], for a line cap that
    is not negative. *)
Lemma extract_section_found (relative_file : str) (lines : list str)
    (header : str) (header_level : option Z) (max_lines : option Z)
    (start_idx level : nat) :
  find_header (lower (strip header)) header_level 0 lines = Some (start_idx, level) ->
  (forall m, max_lines = Some m -> 0 <= m) ->
  let section :=
    truncate max_lines (section_until (ends_section level) lines start_idx) in
  extract_section_from_lines relative_file lines header header_level max_lines =
    Some {| sec_file := relative_file;
            sec_start_line := Z.of_nat start_idx + 1;
            sec_end_line := Z.of_nat start_idx + len section;
            sec_content := join_lines section;
            sec_line_count := len section |}.
Proof.
  intros Hf Hm section.
  unfold DocsTools.extract_section_from_lines. rewrite Hf.
  apply find_header_first in Hf.
  destruct Hf as [pre [line [post [Hl [Hk [_ _]]]]]]. simpl in Hk. subst start_idx.
  assert (Hskip : skipn (S (List.length pre)) lines = post).
  { subst lines. rewrite skipn_app. rewrite skipn_all2 by lia.
    replace (S (List.length pre) - List.length pre)%nat with 1%nat by lia.
    reflexivity. }
  rewrite Hskip.
  set (tw := take_while (fun l => negb (ends_section level l)) post).
  assert (Hend : match find_end level (S (List.length pre)) post with
                 | Some j => Z.of_nat j
                 | None => len lines
                 end = Z.of_nat (List.length pre) + Z.of_nat (S (List.length tw))).
  { pose proof (find_end_take_while level (S (List.length pre)) post) as H.
    fold tw in H. destruct (find_end level (S (List.length pre)) post).
    - lia.
    - unfold len. subst lines. rewrite length_app. simpl. lia. }
  rewrite Hend.
  assert (Hsec : section_until (ends_section level) lines (List.length pre) = line :: tw).
  { subst lines. apply section_until_split. }
  assert (Hpre : skipn (List.length pre) lines = line :: post).
  { subst lines. rewrite skipn_app, skipn_all, Nat.sub_diag. reflexivity. }
  assert (Htw : firstn (S (List.length tw)) (line :: post) = line :: tw).
  { simpl. f_equal. apply take_while_prefix. }
  subst section. rewrite Hsec.
  set (start := Z.of_nat (List.length pre)).
  set (k := Z.of_nat (S (List.length tw))).
  assert (Hslice : forall e, 0 <= e <= k ->
            slice lines start (start + e) = firstn (Z.to_nat e) (line :: tw)).
  { intros e He. rewrite slice_nonneg by lia.
    replace (Z.to_nat start) with (List.length pre) by (subst start; lia).
    rewrite Hpre. rewrite <- Htw. rewrite firstn_firstn.
    f_equal. lia. }
  destruct max_lines as [m|]; simpl truncate.
  - specialize (Hm m eq_refl).
    replace (start + k - start) with k by lia.
    destruct (k >? m) eqn:E.
    + assert (m < k) by lia.
      rewrite (Hslice m) by lia.
      assert (Hlen : len (firstn (Z.to_nat m) (line :: tw)) = m).
      { unfold len. rewrite length_firstn. simpl List.length. lia. }
      rewrite Hlen. f_equal. f_equal. lia.
    + assert (k <= m) by lia.
      rewrite (Hslice k) by lia.
      assert (Hall : firstn (Z.to_nat m) (line :: tw) = line :: tw).
      { apply firstn_all2. simpl List.length. lia. }
      assert (Hallk : firstn (Z.to_nat k) (line :: tw) = line :: tw).
      { apply firstn_all2. simpl List.length. lia. }
      rewrite Hall, Hallk.
      assert (Hlen : len (line :: tw) = k) by (unfold len; simpl List.length; lia).
      rewrite Hlen. f_equal. f_equal. lia.
  - rewrite (Hslice k) by lia.
    assert (Hallk : firstn (Z.to_nat k) (line :: tw) = line :: tw).
    { apply firstn_all2. simpl List.length. lia. }
    rewrite Hallk.
    assert (Hlen : len (line :: tw) = k) by (unfold len; simpl List.length; lia).
    rewrite Hlen. f_equal. f_equal. lia.
Qed.

(** The extractor on a file that is a regular file and can be read. *)
Lemma extract_section_file (relative_file header : str)
    (header_level max_lines : option Z) (text : str) :
  let p := truediv REPO_ROOT (of_str relative_file) in
  is_file fs p = true ->
  read_text fs p = Some text ->
  extract_section_by_header_from_file relative_file header header_level max_lines =
    Ok (extract_section_from_lines relative_file (splitlines text) header
          header_level max_lines).
Proof.
  intros p Hf Ht. unfold DocsTools._extract_section_by_header_from_file.
  fold p. rewrite Hf. unfold read_text_or_raise. rewrite Ht. reflexivity.
Qed.

Lemma section_until_prefix (stop : str -> bool) (lines : list str) (i : nat) :
  firstn (List.length (section_until stop lines i)) (skipn i lines) =
    section_until stop lines i.
Proof.
  unfold section_until. destruct (skipn i lines) as [|h body]; [reflexivity|].
  simpl. f_equal. apply take_while_prefix.
Qed.

Lemma truncate_prefix (max_lines : option Z) (stop : str -> bool)
    (lines : list str) (i : nat) :
  let section := truncate max_lines (section_until stop lines i) in
  firstn (List.length section) (skipn i lines) = section.
Proof.
  intros section. subst section. destruct max_lines as [m|]; simpl.
  - rewrite <- section_until_prefix at 2.
    rewrite firstn_firstn. f_equal.
    rewrite length_firstn. reflexivity.
  - apply section_until_prefix.
Qed.

(** C3, amended. Once the header extractor has matched a heading at line
    index [start_idx] with level [level] in a file, and for a line cap
    that is not negative, the section it returns starts at the heading
    line and runs up to, and without, the next line that after
    left-trimming starts with [#] and has at most [level] of them, with
    or without a text after them, or to the end of the file when there is
    none; lines with more [#] stay in the section. It is cut to its first
    [max_lines] lines when it is longer. *)
Theorem section_extent (relative_file header : str)
    (header_level max_lines : option Z) (text : str) (start_idx level : nat) :
  let p := truediv REPO_ROOT (of_str relative_file) in
  let lines := splitlines text in
  let whole := section_until (ends_section level) lines start_idx in
  is_file fs p = true ->
  read_text fs p = Some text ->
  find_header (lower (strip header)) header_level 0 lines = Some (start_idx, level) ->
  (forall m, max_lines = Some m -> 0 <= m) ->
  exists s,
    extract_section_by_header_from_file relative_file header header_level max_lines
      = Ok (Some s)
    /\ sec_start_line s = Z.of_nat start_idx + 1
    /\ sec_content s = join_lines (truncate max_lines whole)
    /\ sec_end_line s = Z.of_nat start_idx + len (truncate max_lines whole)
    /\ (forall m, max_lines = Some m -> len (truncate max_lines whole) <= m)
    /\ (forall m, max_lines = Some m -> len whole <= m ->
          truncate max_lines whole = whole).
Proof.
  intros p lines whole Hf Ht Hh Hm.
  rewrite (@extract_section_file relative_file header header_level max_lines
             text Hf Ht).
  fold lines.
  rewrite (@extract_section_found relative_file lines header header_level
             max_lines start_idx level Hh Hm).
  eexists. split; [reflexivity|]. simpl. fold whole.
  repeat split; auto.
  - intros m ->. rewrite truncate_length by assumption.
    specialize (Hm m eq_refl). lia.
  - intros m -> Hle. simpl. apply firstn_all2. unfold len in Hle. lia.
Qed.

Lemma read_section_invariant (file : str) (start_line : Z)
    (end_line : option Z) (max_lines : Z) (s : SectionSlice) :
  1 <= max_lines ->
  read_section file start_line end_line max_lines = Ok s ->
  exists text,
    read_text fs (docs_path file) = Some text
    /\ slice_invariant (splitlines text) s.
Proof.
  intros Hm Hr.
  destruct (exists_ fs (docs_path file)) eqn:He.
  2:{ rewrite (@read_section_missing file start_line end_line max_lines He) in Hr. discriminate. }
  destruct (read_text fs (docs_path file)) as [text|] eqn:Ht.
  2:{ unfold DocsIndex.read_section, read_text_or_raise in Hr.
      rewrite He, Ht in Hr. discriminate. }
  exists text. split; [reflexivity|].
  rewrite (@read_section_lines file start_line end_line max_lines text He Ht) in Hr.
  cbv zeta in Hr. rewrite clamp_start_max in Hr.
  set (lines := splitlines text) in *. set (start := Z.max 1 start_line) in *.
  destruct (start - 1 >=? len lines) eqn:E; [discriminate|].
  rewrite Z.geb_leb in E. apply Z.leb_gt in E.
  assert (Hs : 1 <= start) by (subst start; lia).
  assert (Hshape : forall e, start <= e <= len lines ->
            slice_invariant lines
              {| sec_file := DocsIndex.rel_str REPO_ROOT (docs_path file);
                 sec_start_line := start;
                 sec_end_line := e;
                 sec_content := join_lines (slice lines (start - 1) e);
                 sec_line_count := len (slice lines (start - 1) e) |}).
  { intros e He'. unfold slice_invariant. simpl.
    rewrite lines_in_range_slice by lia.
    rewrite lines_in_range_length by lia.
    repeat split; lia. }
  destruct end_line as [e|].
  - destruct (e <? start) eqn:Ee; [discriminate|].
    apply Z.ltb_ge in Ee. simpl in Hr. injection Hr as <-.
    apply Hshape. lia.
  - simpl in Hr. injection Hr as <-. apply Hshape. lia.
Qed.

Lemma extract_section_invariant (relative_file header : str)
    (header_level : option Z) (max_lines : Z) (s : SectionSlice) :
  1 <= max_lines ->
  extract_section_by_header_from_file relative_file header header_level
    (Some max_lines) = Ok (Some s) ->
  exists text,
    read_text fs (truediv REPO_ROOT (of_str relative_file)) = Some text
    /\ slice_invariant (splitlines text) s.
Proof.
  intros Hm Hr.
  set (p := truediv REPO_ROOT (of_str relative_file)).
  destruct (is_file fs p) eqn:Hf.
  2:{ unfold DocsTools._extract_section_by_header_from_file in Hr.
      fold p in Hr. rewrite Hf in Hr. discriminate. }
  destruct (read_text fs p) as [text|] eqn:Ht.
  2:{ unfold DocsTools._extract_section_by_header_from_file, read_text_or_raise in Hr.
      fold p in Hr. rewrite Hf, Ht in Hr. discriminate. }
  exists text. split; [reflexivity|].
  rewrite (@extract_section_file relative_file header header_level
             (Some max_lines) text Hf Ht) in Hr.
  injection Hr as Hr.
  set (lines := splitlines text) in *.
  destruct (find_header (lower (strip header)) header_level 0 lines)
    as [[start_idx level]|] eqn:Hh.
  2:{ unfold DocsTools.extract_section_from_lines in Hr. rewrite Hh in Hr.
      discriminate. }
  assert (Hcap : forall m, Some max_lines = Some m -> 0 <= m)
    by (intros m Hm'; injection Hm' as <-; lia).
  rewrite (@extract_section_found relative_file lines header header_level
             (Some max_lines) start_idx level Hh Hcap) in Hr.
  injection Hr as <-.
  set (section := truncate (Some max_lines)
                    (section_until (ends_section level) lines start_idx)).
  assert (Hlen : 1 <= len section).
  { subst section. rewrite truncate_length by exact Hcap.
    apply find_header_first in Hh.
    destruct Hh as [pre [line [post [Hl [Hk _]]]]]. simpl in Hk. subst start_idx.
    rewrite Hl, section_until_split. unfold len. simpl List.length. lia. }
  assert (Hrange : lines_in_range lines (Z.of_nat start_idx + 1)
                     (Z.of_nat start_idx + len section) = section).
  { unfold lines_in_range.
    replace (Z.to_nat (Z.of_nat start_idx + len section
                       - (Z.of_nat start_idx + 1) + 1))
      with (List.length section) by (unfold len; lia).
    replace (Z.to_nat (Z.of_nat start_idx + 1 - 1)) with start_idx by lia.
    apply (truncate_prefix (Some max_lines)). }
  unfold slice_invariant.
  cbn [sec_line_count sec_end_line sec_start_line sec_content].
  change (firstn (Z.to_nat max_lines)
            (section_until (ends_section level) lines start_idx)) with section.
  rewrite Hrange.
  repeat split; lia.
Qed.

(** C10. With [max_lines >= 1], every section slice [read_section] or the
    header extractor returns has
    [line_count = end_line - start_line + 1 >= 1], a start line that is
    at least 1 and at most the end line, and a content that is the
    newline-joined run of the [line_count] lines of the file numbered
    [start_line] to [end_line]. *)
Theorem section_slice_invariant (max_lines : Z) :
  1 <= max_lines ->
  (forall file start_line end_line s,
      read_section file start_line end_line max_lines = Ok s ->
      exists text,
        read_text fs (docs_path file) = Some text
        /\ slice_invariant (splitlines text) s)
  /\ (forall relative_file header header_level s,
        extract_section_by_header_from_file relative_file header header_level
          (Some max_lines) = Ok (Some s) ->
        exists text,
          read_text fs (truediv REPO_ROOT (of_str relative_file)) = Some text
          /\ slice_invariant (splitlines text) s).
Proof.
  intros Hm. split.
  - intros file start_line end_line s. apply read_section_invariant. exact Hm.
  - intros relative_file header header_level s.
    apply extract_section_invariant. exact Hm.
Qed.

(** *** The line search *)

Local Abbreviation rel_str := (DocsIndex.rel_str REPO_ROOT).
Local Abbreviation scan_lines := (DocsIndex.scan_lines lower REPO_ROOT).
Local Abbreviation search_in_file := (DocsIndex.search_in_file lower REPO_ROOT fs).
Local Abbreviation search_files := (DocsIndex.search_files lower REPO_ROOT fs).
Local Abbreviation get_files_for_scope := (DocsIndex.get_files_for_scope REPO_ROOT fs).
Local Abbreviation files_of_roots := (DocsIndex.files_of_roots fs).
Local Abbreviation SCOPE_PATHS := (DocsIndex.SCOPE_PATHS REPO_ROOT).

Lemma files_of_roots_flat_map (roots files : list path) :
  files_of_roots roots files = files ++ flat_map root_files roots.
Proof.
  revert files. induction roots as [|p roots IH]; intros files; simpl.
  - rewrite app_nil_r. reflexivity.
  - unfold root_files at 1.
    destruct (is_file fs p && Str.eqb (suffix p) (lit ".md")).
    + rewrite IH, <- app_assoc. reflexivity.
    + destruct (is_dir fs p).
      * rewrite IH, <- app_assoc. reflexivity.
      * rewrite IH. reflexivity.
Qed.

(** Every recognised scope is a key of [SCOPE_PATHS]. *)
Lemma get_files_known (scope : str) :
  In scope SCOPES ->
  exists roots,
    dict_get scope SCOPE_PATHS = Some roots
    /\ get_files_for_scope scope = Ok (flat_map root_files roots).
Proof.
  intros H. unfold DocsIndex.get_files_for_scope.
  assert (Hk : dict_mem scope SCOPE_PATHS = true
               /\ exists roots, dict_get scope SCOPE_PATHS = Some roots).
  { unfold SCOPES in H. simpl in H.
    repeat (destruct H as [<- | H]; [split; [reflexivity | eexists; reflexivity]|]).
    contradiction. }
  destruct Hk as [Hm [roots Hg]]. exists roots. split; [exact Hg|].
  rewrite Hm, Hg. simpl. rewrite files_of_roots_flat_map. reflexivity.
Qed.

Lemma scan_lines_hit (p : path) (query : str) (lines : list str) (i : nat)
    (h : SearchHit) :
  In h (scan_lines p query i lines) ->
  hit_file h = rel_str p
  /\ Z.of_nat i < hit_line h
  /\ exists line,
       nth_error lines (Z.to_nat (hit_line h - 1) - i) = Some line
       /\ contains (lower query) (lower line) = true
       /\ hit_snippet h = strip line.
Proof.
  revert i. induction lines as [|l lines IH]; intros i Hin; simpl in Hin.
  - contradiction.
  - assert (Hrest : In h (scan_lines p query (S i) lines) ->
              hit_file h = rel_str p
              /\ Z.of_nat i < hit_line h
              /\ exists line,
                   nth_error (l :: lines) (Z.to_nat (hit_line h - 1) - i) = Some line
                   /\ contains (lower query) (lower line) = true
                   /\ hit_snippet h = strip line).
    { intros Hr. destruct (IH (S i) Hr) as [Hf [Hlt [line [Hn Hc]]]].
      split; [exact Hf|]. split; [lia|]. exists line. split; [|exact Hc].
      replace (Z.to_nat (hit_line h - 1) - i)%nat
        with (S (Z.to_nat (hit_line h - 1) - S i)) by lia.
      exact Hn. }
    destruct (contains (lower query) (lower l)) eqn:E.
    + destruct Hin as [<- | Hin]; [|auto].
      simpl. split; [reflexivity|]. split; [lia|].
      exists l. replace (Z.to_nat (Z.of_nat i + 1 - 1) - i)%nat with 0%nat by lia.
      auto.
    + auto.
Qed.

Lemma scan_lines_order (p : path) (query : str) (lines : list str) (i : nat) :
  line_order (scan_lines p query i lines).
Proof.
  unfold line_order. revert i.
  induction lines as [|l lines IH]; intros i; simpl; [constructor|].
  destruct (contains (lower query) (lower l)); [|apply IH].
  constructor; [apply IH|].
  apply Forall_forall. intros h Hh. simpl.
  destruct (@scan_lines_hit _ _ _ _ _ Hh) as [_ [Hlt _]]. lia.
Qed.

(** One file's hits, when it can be read. *)
Lemma search_in_file_hits (p : path) (query : str) (hits : list SearchHit) :
  search_in_file p query = Ok hits ->
  exists text,
    read_text fs p = Some text
    /\ line_order hits
    /\ Forall (hit_of_line p query (splitlines text)) hits.
Proof.
  unfold DocsIndex.search_in_file, read_text_or_raise.
  destruct (read_text fs p) as [text|]; [|discriminate].
  simpl. intros H. injection H as <-. exists text.
  split; [reflexivity|]. split; [apply scan_lines_order|].
  apply Forall_forall. intros h Hh.
  destruct (@scan_lines_hit _ _ _ _ _ Hh) as [Hf [Hlt [line [Hn [Hc Hs]]]]].
  unfold hit_of_line. split; [exact Hf|]. split; [lia|].
  exists line. rewrite Nat.sub_0_r in Hn.
  split; [exact Hn|]. split; [apply contains_substring; exact Hc | exact Hs].
Qed.

(** The loop over the files: the hits of an initial run of the files,
    file after file, and it ends with the files or at the limit. *)
Lemma search_files_visited (files : list path) (query : str) (limit : Z)
    (results res : list SearchHit) :
  search_files files query limit results = Ok res ->
  exists visited rest per_file,
    files = visited ++ rest
    /\ Forall2 (fun f hs => search_in_file f query = Ok hs) visited per_file
    /\ res = results ++ List.concat per_file
    /\ (rest = [] \/ limit <= len res).
Proof.
  revert results. induction files as [|f files IH]; intros results H; simpl in H.
  - injection H as <-. exists [], [], []. simpl.
    rewrite app_nil_r. repeat split; auto.
  - destruct (search_in_file f query) as [hits|e] eqn:Ef; [|discriminate].
    simpl in H.
    destruct (len (results ++ hits) >=? limit) eqn:El.
    + injection H as <-. exists [f], files, [hits]. simpl.
      rewrite app_nil_r. repeat split; auto.
      right. rewrite Z.geb_leb in El. apply Z.leb_le in El. exact El.
    + destruct (IH _ H) as [visited [rest [per_file [Hv [Hp [Hr Hs]]]]]].
      exists (f :: visited), rest, (hits :: per_file). simpl.
      subst files. repeat split; auto.
      rewrite Hr, <- app_assoc. reflexivity.
Qed.

Lemma search_files_total (files : list path) (query : str) (limit : Z)
    (results : list SearchHit) :
  Forall (fun p => read_text fs p <> None) files ->
  exists res, search_files files query limit results = Ok res.
Proof.
  intros H. revert results.
  induction H as [|f files Hf _ IH]; intros results; simpl.
  - eauto.
  - unfold DocsIndex.search_in_file, read_text_or_raise.
    destruct (read_text fs f) as [text|]; [|congruence]. simpl.
    destruct (len _ >=? limit); eauto.
Qed.

(** [search_scope] on a recognised scope and a query that is not blank. *)
Lemma search_scope_unfold (scope query : str) (limit : Z) (roots : list path) :
  is_empty query || is_empty (strip query) = false ->
  dict_get scope SCOPE_PATHS = Some roots ->
  get_files_for_scope scope = Ok (flat_map root_files roots) ->
  search_scope scope query limit =
    bind (search_files (flat_map root_files roots) query (effective_limit limit) [])
         (fun results =>
            Ok (firstn (Z.to_nat (effective_limit limit)) results)).
Proof.
  intros Hq Hg Hf. unfold DocsIndex.search_scope. rewrite Hq, Hf.
  fold (effective_limit limit). simpl.
  destruct (search_files _ query (effective_limit limit) []) as [results|e];
    [|reflexivity].
  simpl. f_equal.
  assert (0 < effective_limit limit).
  { unfold effective_limit. destruct (limit <=? 0) eqn:E; [lia|].
    apply Z.leb_gt in E. exact E. }
  rewrite slice_nonneg by lia. simpl. f_equal. lia.
Qed.

Lemma Forall2_In_r {A B} (R : A -> B -> Prop) (l1 : list A) (l2 : list B) (y : B) :
  Forall2 R l1 l2 -> In y l2 -> exists x, In x l1 /\ R x y.
Proof.
  induction 1 as [|a b l1 l2 Hab _ IH]; simpl; [contradiction|].
  intros [<- | Hin].
  - exists a. auto.
  - destruct (IH Hin) as [x [Hx Hr]]. exists x. auto.
Qed.

Lemma firstn_In {A} (n : nat) (l : list A) (x : A) : In x (firstn n l) -> In x l.
Proof.
  revert l. induction n as [|n IH]; intros [|a l]; simpl; try contradiction.
  intros [-> | H]; [left; reflexivity | right; apply IH; exact H].
Qed.

Lemma effective_limit_pos (limit : Z) : 0 < effective_limit limit.
Proof.
  unfold effective_limit. destruct (limit <=? 0) eqn:E; [lia|].
  apply Z.leb_gt in E. exact E.
Qed.

(** C1, amended. For a recognised scope and a non-empty query,
    [search_scope] returns a list whenever the files it opens can be
    read, and a list it returns has at most [limit] hits when [limit] is
    positive and at most 20 when it is not. Every hit names a file of the
    scope by its external path and a line of it by its number counted
    from 1; that line holds the query as a substring once both are
    lower-cased, and the snippet is the line with the whitespace around
    it trimmed. *)
Theorem search_scope_hits (scope query : str) (limit : Z) :
  In scope SCOPES ->
  query <> [] ->
  exists files,
    get_files_for_scope scope = Ok files
    /\ (Forall (fun p => read_text fs p <> None) files ->
        exists hits, search_scope scope query limit = Ok hits)
    /\ (forall hits,
          search_scope scope query limit = Ok hits ->
          len hits <= effective_limit limit
          /\ forall h, In h hits ->
               exists p text,
                 In p files
                 /\ read_text fs p = Some text
                 /\ hit_of_line p query (splitlines text) h).
Proof.
  intros Hs Hq.
  destruct (@get_files_known scope Hs) as [roots [Hg Hf]].
  exists (flat_map root_files roots). split; [exact Hf|].
  destruct (is_empty query || is_empty (strip query)) eqn:Eq.
  - assert (Hr : search_scope scope query limit = Ok []).
    { unfold DocsIndex.search_scope. rewrite Eq. reflexivity. }
    rewrite Hr. split; [eauto|].
    intros hits H. injection H as <-. split.
    + pose proof (effective_limit_pos limit). unfold len. simpl. lia.
    + intros h [].
  - rewrite (@search_scope_unfold scope query limit roots Eq Hg Hf). split.
    + intros Hread.
      destruct (@search_files_total (flat_map root_files roots) query
                  (effective_limit limit) [] Hread) as [res Hres].
      rewrite Hres. simpl. eauto.
    + intros hits H.
      destruct (search_files _ query (effective_limit limit) [])
        as [res|e] eqn:Eres; [|discriminate].
      simpl in H. injection H as <-. split.
      * pose proof (effective_limit_pos limit).
        unfold len. rewrite length_firstn. lia.
      * intros h Hh. apply firstn_In in Hh.
        destruct (@search_files_visited _ _ _ _ _ Eres)
          as [visited [rest [per_file [Hv [Hp [Hr _]]]]]].
        simpl in Hr. subst res. apply in_concat in Hh.
        destruct Hh as [hs [Hhs Hh]].
        destruct (@Forall2_In_r _ _ _ _ _ _ Hp Hhs) as [f [Hfv Hfs]].
        destruct (@search_in_file_hits _ _ _ Hfs) as [text [Ht [_ Hall]]].
        exists f, text. split; [rewrite Hv; apply in_or_app; left; exact Hfv|].
        split; [exact Ht|].
        rewrite Forall_forall in Hall. apply Hall. exact Hh.
Qed.

(** C5, amended. For a recognised scope and a non-empty query,
    [search_scope] visits the files in the order [get_files_for_scope]
    lists them: the scope's roots in the order of the registry and, under
    a directory root, the Markdown files in the order the filesystem
    yields them; the list is neither sorted nor deduplicated. The hits
    are those of an initial run of that list, file after file, each
    file's hits in top-to-bottom line order, cut to the limit. *)
Theorem search_scope_order (scope query : str) (limit : Z)
    (hits : list SearchHit) :
  In scope SCOPES ->
  query <> [] ->
  search_scope scope query limit = Ok hits ->
  exists roots visited rest per_file,
    dict_get scope SCOPE_PATHS = Some roots
    /\ get_files_for_scope scope = Ok (visited ++ rest)
    /\ visited ++ rest = flat_map root_files roots
    /\ Forall2 (fun f hs =>
                  search_in_file f query = Ok hs
                  /\ Forall (fun h => hit_file h = rel_str f) hs
                  /\ line_order hs) visited per_file
    /\ hits = firstn (Z.to_nat (effective_limit limit)) (List.concat per_file).
Proof.
  intros Hs Hq H.
  destruct (@get_files_known scope Hs) as [roots [Hg Hf]].
  exists roots.
  destruct (is_empty query || is_empty (strip query)) eqn:Eq.
  - assert (Hr : search_scope scope query limit = Ok []).
    { unfold DocsIndex.search_scope. rewrite Eq. reflexivity. }
    rewrite Hr in H. injection H as <-.
    exists [], (flat_map root_files roots), []. simpl.
    rewrite firstn_nil. repeat split; auto.
  - rewrite (@search_scope_unfold scope query limit roots Eq Hg Hf) in H.
    destruct (search_files _ query (effective_limit limit) [])
      as [res|e] eqn:Eres; [|discriminate].
    simpl in H. injection H as <-.
    destruct (@search_files_visited _ _ _ _ _ Eres)
      as [visited [rest [per_file [Hv [Hp [Hr _]]]]]].
    simpl in Hr. subst res.
    exists visited, rest, per_file. rewrite <- Hv.
    repeat split; auto.
    clear - Hp. induction Hp as [|f hs visited per_file Hfh _ IH];
      constructor; [|exact IH].
    split; [exact Hfh|].
    destruct (@search_in_file_hits _ _ _ Hfh) as [text [_ [Ho Hall]]].
    split; [|exact Ho].
    eapply Forall_impl; [|exact Hall]. intros h [Hh _]. exact Hh.
Qed.

End WithRepo.
End DocsFacts.

(** ** Paths as strings *)

Module PathFacts.
Import Str Py Path StrFacts.

Lemma join_cons (sep p : str) (ps : list str) :
  join sep (p :: ps) =
    p ++ match ps with
         | [] => []
         | _ :: _ => sep ++ join sep ps
         end.
Proof.
  destruct ps; simpl; [rewrite app_nil_r|]; reflexivity.
Qed.

(** Two slash-free components followed by nothing or by a slash: the
    first slash tells where each component ends. *)
Lemma split_at_slash (c1 c2 t1 t2 : str) :
  ~ In SLASH c1 -> ~ In SLASH c2 ->
  (t1 = [] \/ exists u, t1 = SLASH :: u) ->
  (t2 = [] \/ exists u, t2 = SLASH :: u) ->
  c1 ++ t1 = c2 ++ t2 ->
  c1 = c2 /\ t1 = t2.
Proof.
  revert c2. induction c1 as [|x c1 IH]; intros [|y c2] H1 H2 Ht1 Ht2 He;
    simpl in He.
  - auto.
  - exfalso. destruct Ht1 as [-> | [u ->]]; [discriminate|].
    injection He as <- _. apply H2. left; reflexivity.
  - exfalso. destruct Ht2 as [-> | [u ->]]; [discriminate|].
    injection He as -> _. apply H1. left; reflexivity.
  - injection He as -> He.
    destruct (IH c2) as [-> ->]; auto.
    + intros H. apply H1. right; exact H.
    + intros H. apply H2. right; exact H.
Qed.

Lemma join_slash_inj (l1 l2 : list str) :
  Forall wf_part l1 -> Forall wf_part l2 ->
  join [SLASH] l1 = join [SLASH] l2 -> l1 = l2.
Proof.
  intros H1. revert l2.
  induction H1 as [|c1 l1 [Hne1 [_ Hs1]] Hl1 IH]; intros l2 H2 He.
  - destruct H2 as [|c2 l2 [Hne2 _] _]; [reflexivity|].
    rewrite join_cons in He. destruct c2; [congruence | discriminate].
  - destruct H2 as [|c2 l2 [Hne2 [_ Hs2]] Hl2].
    + rewrite join_cons in He. destruct c1; [congruence | discriminate].
    + rewrite !join_cons in He.
      apply split_at_slash in He; auto.
      * destruct He as [-> He]. f_equal.
        destruct l1 as [|a l1], l2 as [|b l2]; try discriminate; [reflexivity|].
        simpl app in He. injection He as He. apply IH; assumption.
      * destruct l1; [left; reflexivity | right; eexists; reflexivity].
      * destruct l2; [left; reflexivity | right; eexists; reflexivity].
Qed.

Lemma to_str_relative_inj (r1 r2 : list str) :
  Forall wf_part r1 -> Forall wf_part r2 ->
  to_str {| anchored := false; parts := r1 |}
    = to_str {| anchored := false; parts := r2 |} ->
  r1 = r2.
Proof.
  intros H1 H2. unfold to_str. simpl.
  assert (Hdot : forall c l, wf_part c -> [DOT] <> join [SLASH] (c :: l)).
  { intros c l [Hne [Hnd _]] He. rewrite join_cons in He.
    destruct c as [|x c]; [congruence|]. simpl in He. injection He as <- He.
    destruct c; [congruence | discriminate]. }
  destruct H1 as [|c1 l1 Hc1 Hl1], H2 as [|c2 l2 Hc2 Hl2]; intros He.
  - reflexivity.
  - exfalso. exact (Hdot _ _ Hc2 He).
  - exfalso. symmetry in He. exact (Hdot _ _ Hc1 He).
  - apply join_slash_inj; auto.
Qed.

(** The root of a path whose parts are proper is not [//]. *)
Lemma double_wf (a : bool) (l : list str) :
  Forall wf_part l -> double {| anchored := a; parts := l |} = false.
Proof.
  intros H. unfold double. cbn [anchored parts].
  destruct H as [|c l [Hne _] _]; [apply andb_false_r|].
  destruct c; [congruence | apply andb_false_r].
Qed.

Lemma to_str_anchored_wf (l : list str) :
  Forall wf_part l ->
  to_str {| anchored := true; parts := l |} = SLASH :: join [SLASH] l.
Proof.
  intros H. unfold to_str. rewrite (double_wf true H). reflexivity.
Qed.

Lemma to_str_anchored_slash (l : list str) :
  exists t, to_str {| anchored := true; parts := l |} = SLASH :: t.
Proof.
  unfold to_str. cbn [anchored].
  destruct (double _); eexists; reflexivity.
Qed.

Lemma to_str_anchored_relative (l r : list str) :
  Forall wf_part r ->
  to_str {| anchored := true; parts := l |}
    <> to_str {| anchored := false; parts := r |}.
Proof.
  intros Hr. destruct (to_str_anchored_slash l) as [t ->].
  unfold to_str. cbn [anchored parts].
  destruct Hr as [|c r [Hne [_ Hs]] _]; [discriminate|].
  rewrite join_cons. destruct c as [|x c]; [congruence|].
  simpl. intros He. injection He as <- _. apply Hs. left; reflexivity.
Qed.

Lemma to_str_anchored_inj (l1 l2 : list str) :
  Forall wf_part l1 -> Forall wf_part l2 ->
  to_str {| anchored := true; parts := l1 |}
    = to_str {| anchored := true; parts := l2 |} ->
  l1 = l2.
Proof.
  intros H1 H2. rewrite !to_str_anchored_wf by assumption.
  intros He. injection He as He.
  apply join_slash_inj; assumption.
Qed.

Lemma strip_prefix_app (pre l r : list str) :
  strip_prefix pre l = Some r -> l = pre ++ r.
Proof.
  revert l. induction pre as [|a pre IH]; intros l H; simpl in H.
  - injection H as <-. reflexivity.
  - destruct l as [|b l]; [discriminate|].
    destruct (Str.eqb a b) eqn:E; [|discriminate].
    apply eqb_eq in E. subst b. simpl. f_equal. apply IH. exact H.
Qed.

Section WithRoot.

Variable REPO_ROOT : path.

(** The external path of a resolved path tells the path: a path under
    [REPO_ROOT] prints without a leading slash, any other prints with
    one. *)
Lemma rel_str_inj (p q : path) :
  wf_resolved p -> wf_resolved q ->
  DocsIndex.rel_str REPO_ROOT p = DocsIndex.rel_str REPO_ROOT q -> p = q.
Proof.
  destruct p as [ap lp], q as [aq lq].
  intros [Hap Hp] [Haq Hq]. simpl in *. subst ap aq.
  unfold DocsIndex.rel_str, relative_to.
  rewrite (double_wf true Hp), (double_wf true Hq). cbn [anchored parts].
  destruct (Bool.eqb true (anchored REPO_ROOT)
            && Bool.eqb false (double REPO_ROOT)).
  - destruct (strip_prefix (parts REPO_ROOT) lp) as [rp|] eqn:Ep;
      destruct (strip_prefix (parts REPO_ROOT) lq) as [rq|] eqn:Eq; intros He.
    + apply strip_prefix_app in Ep. apply strip_prefix_app in Eq. subst lp lq.
      apply Forall_app in Hp. apply Forall_app in Hq.
      f_equal. f_equal.
      apply to_str_relative_inj; [apply Hp | apply Hq | exact He].
    + exfalso. apply strip_prefix_app in Ep. subst lp.
      apply Forall_app in Hp. symmetry in He.
      exact (@to_str_anchored_relative _ _ (proj2 Hp) He).
    + exfalso. apply strip_prefix_app in Eq. subst lq.
      apply Forall_app in Hq.
      exact (@to_str_anchored_relative _ _ (proj2 Hq) He).
    + f_equal. apply to_str_anchored_inj; assumption.
  - intros He. f_equal. apply to_str_anchored_inj; assumption.
Qed.

End WithRoot.
End PathFacts.

(** ** Sorting *)

Module SortFacts.
Import Str StrFacts DocsTools Spec.

Lemma insert_sorted_perm (x : str) (l : list str) :
  Permutation (insert_sorted x l) (x :: l).
Proof.
  induction l as [|y l IH]; simpl; [apply Permutation_refl|].
  destruct (Str.leb x y); [apply Permutation_refl|].
  apply perm_trans with (y :: x :: l); [|apply perm_swap].
  apply perm_skip. exact IH.
Qed.

Lemma sort_perm (l : list str) : Permutation (sort l) l.
Proof.
  induction l as [|x l IH]; simpl; [apply perm_nil|].
  apply perm_trans with (x :: sort l); [apply insert_sorted_perm|].
  apply perm_skip. exact IH.
Qed.

Lemma insert_sorted_hd (x y : str) (l : list str) :
  HdRel le_str y l -> le_str y x -> HdRel le_str y (insert_sorted x l).
Proof.
  intros Hl Hx. destruct l as [|z l]; simpl.
  - constructor. exact Hx.
  - destruct (Str.leb x z); constructor; [exact Hx|].
    inversion Hl; assumption.
Qed.

Lemma insert_sorted_sorted (x : str) (l : list str) :
  Sorted le_str l -> Sorted le_str (insert_sorted x l).
Proof.
  induction 1 as [|y l Hs IH Hh]; simpl.
  - repeat constructor.
  - destruct (Str.leb x y) eqn:E.
    + constructor; [constructor; assumption|]. constructor. exact E.
    + constructor; [exact IH|].
      apply insert_sorted_hd; [exact Hh|].
      destruct (leb_total x y) as [H | H]; [congruence | exact H].
Qed.

Lemma sort_sorted (l : list str) : Sorted le_str (sort l).
Proof.
  induction l as [|x l IH]; simpl; [constructor|].
  apply insert_sorted_sorted. exact IH.
Qed.

(** A sorted list without repetition is strictly ascending. *)
Lemma sorted_nodup_strict (l : list str) :
  Sorted le_str l -> NoDup l -> StronglySorted lt_str l.
Proof.
  intros Hs Hn.
  apply Sorted_StronglySorted in Hs.
  2:{ intros a b c. apply leb_trans. }
  induction Hs as [|x l Hs IH Hx]; [constructor|].
  inversion Hn as [|? ? Hnin Hn']; subst.
  constructor; [apply IH; exact Hn'|].
  rewrite Forall_forall in *. intros y Hy.
  apply leb_neq_ltb; [apply Hx; exact Hy|].
  intros ->. contradiction.
Qed.

End SortFacts.

(** ** The file listing and the last-update report *)

Module ToolsFacts.
Import Str Py Path StrFacts PathFacts SortFacts DocsIndex DocsTools Spec.

Section WithRepo.

Variable REPO_ROOT : path.
Variable fs : FS.

Local Abbreviation rel_str := (DocsIndex.rel_str REPO_ROOT).
Local Abbreviation SCOPE_PATHS := (DocsIndex.SCOPE_PATHS REPO_ROOT).
Local Abbreviation candidates_of := (DocsTools.candidates_of fs).
Local Abbreviation add_unseen := (DocsTools.add_unseen fs).
Local Abbreviation collect_files := (DocsTools.collect_files fs).
Local Abbreviation doc_files_of_roots := (DocsTools.doc_files_of_roots REPO_ROOT fs).
Local Abbreviation list_openai_doc_files :=
  (DocsTools.list_openai_doc_files REPO_ROOT fs).
Local Abbreviation candidate := (Spec.candidate fs).
Local Abbreviation listing_of := (Spec.listing_of REPO_ROOT fs).
Local Abbreviation walk := (Spec.walk fs).
Local Abbreviation all_candidates := (Spec.all_candidates REPO_ROOT fs).

Lemma map_NoDup_in {A B} (f : A -> B) (l : list A) :
  (forall x y, In x l -> In y l -> f x = f y -> x = y) ->
  NoDup l -> NoDup (List.map f l).
Proof.
  intros Hinj Hn. induction Hn as [|a l Hnin Hn IH]; simpl; constructor.
  - rewrite in_map_iff. intros [y [He Hy]].
    apply Hnin. rewrite (Hinj a y); auto; [left; reflexivity | right; exact Hy].
  - apply IH. intros x y Hx Hy. apply Hinj; right; assumption.
Qed.

Lemma existsb_path_eqb (seen : list path) (rp : path) :
  existsb (Path.eqb rp) seen = true <-> In rp seen.
Proof.
  rewrite existsb_exists. split.
  - intros [x [Hin He]]. apply path_eqb_eq in He. subst x. exact Hin.
  - intros H. exists rp. split; [exact H | apply path_eqb_eq; reflexivity].
Qed.

Lemma add_unseen_inv (cands : list path) (st : list path * list path) :
  dedup_inv st -> dedup_inv (add_unseen cands st).
Proof.
  revert st. induction cands as [|p cands IH]; intros [seen files] Hinv; simpl.
  - exact Hinv.
  - destruct (existsb (Path.eqb (resolve fs p)) seen) eqn:E; simpl.
    + apply IH. exact Hinv.
    + apply IH. destruct Hinv as [Hn Hs]. simpl in *.
      assert (Hnin : ~ In (resolve fs p) files).
      { intros H. apply Hs in H. apply existsb_path_eqb in H. congruence. }
      split; simpl.
      * apply NoDup_app; [exact Hn | repeat constructor; intros [] |].
        intros x Hx [<- | []]. contradiction.
      * intros x. rewrite in_app_iff. simpl. rewrite Hs. tauto.
Qed.

Lemma add_unseen_In (cands : list path) (st : list path * list path) (f : path) :
  dedup_inv st ->
  (In f (snd (add_unseen cands st)) <->
   In f (snd st) \/ exists c, In c cands /\ f = resolve fs c).
Proof.
  revert st. induction cands as [|p cands IH]; intros [seen files] Hinv; simpl.
  - split; [auto | intros [H | [c [[] _]]]; exact H].
  - destruct (existsb (Path.eqb (resolve fs p)) seen) eqn:E; simpl.
    + rewrite (IH _ Hinv). simpl. split.
      * intros [H | [c [Hc ->]]]; [auto | right; exists c; auto].
      * intros [H | [c [[<- | Hc] ->]]]; [auto | | right; exists c; auto].
        left. apply Hinv. simpl. apply existsb_path_eqb. exact E.
    + assert (Hinv' : dedup_inv (resolve fs p :: seen, files ++ [resolve fs p])).
      { assert (Hone : add_unseen [p] (seen, files)
                       = (resolve fs p :: seen, files ++ [resolve fs p]))
          by (simpl; rewrite E; reflexivity).
        rewrite <- Hone. apply add_unseen_inv. exact Hinv. }
      rewrite (IH _ Hinv'). simpl. rewrite in_app_iff. simpl. split.
      * intros [[H | [<- | []]] | [c [Hc ->]]]; [auto | | ].
        -- right. exists p. auto.
        -- right. exists c. auto.
      * intros [H | [c [[<- | Hc] ->]]]; [auto | auto |].
        right. exists c. auto.
Qed.

Lemma collect_files_inv (roots : list path) (st : list path * list path) :
  dedup_inv st -> dedup_inv (collect_files roots st).
Proof.
  revert st. induction roots as [|root roots IH]; intros st Hinv; simpl.
  - exact Hinv.
  - destruct (candidates_of root) as [cands|]; apply IH; [|exact Hinv].
    apply add_unseen_inv. exact Hinv.
Qed.

Lemma collect_files_In (roots : list path) (st : list path * list path) (f : path) :
  dedup_inv st ->
  (In f (snd (collect_files roots st)) <->
   In f (snd st) \/ exists c, candidate roots c /\ f = resolve fs c).
Proof.
  unfold candidate.
  revert st. induction roots as [|root roots IH]; intros st Hinv; simpl.
  - split; [auto | intros [H | [c [[r [cs [[] _]]] _]]]; exact H].
  - destruct (candidates_of root) as [cands|] eqn:Ec.
    + rewrite (IH _ (add_unseen_inv cands Hinv)).
      rewrite (add_unseen_In cands f Hinv). split.
      * intros [[H | [c [Hc ->]]] | [c [[r [cs [Hr [Hcs Hc]]]] ->]]].
        -- auto.
        -- right. exists c. split; [|reflexivity]. exists root, cands. auto.
        -- right. exists c. split; [|reflexivity]. exists r, cs. auto.
      * intros [H | [c [[r [cs [[<- | Hr] [Hcs Hc]]]] ->]]].
        -- auto.
        -- left. right. exists c. split; [|reflexivity].
           rewrite Ec in Hcs. injection Hcs as <-. exact Hc.
        -- right. exists c. split; [|reflexivity]. exists r, cs. auto.
    + rewrite (IH _ Hinv). split.
      * intros [H | [c [[r [cs [Hr [Hcs Hc]]]] ->]]]; [auto|].
        right. exists c. split; [|reflexivity]. exists r, cs. auto.
      * intros [H | [c [[r [cs [[<- | Hr] [Hcs Hc]]]] ->]]]; [auto | congruence |].
        right. exists c. split; [|reflexivity]. exists r, cs. auto.
Qed.

Lemma doc_files_of_roots_listing (roots : list path) :
  (forall p, wf_resolved (resolve fs p)) ->
  listing_of roots (doc_files_of_roots roots).
Proof.
  intros Hwf. unfold DocsTools.doc_files_of_roots, listing_of.
  set (files := snd (collect_files roots ([], []))).
  assert (Hinv0 : dedup_inv ([], [])).
  { split; simpl; [constructor | tauto]. }
  pose proof (collect_files_inv roots Hinv0) as [Hn _]. fold files in Hn.
  assert (Hin : forall f, In f files <->
                  exists c, candidate roots c /\ f = resolve fs c).
  { intros f. subst files. rewrite (collect_files_In roots f Hinv0). simpl. tauto. }
  assert (Hnd : NoDup (List.map rel_str files)).
  { apply map_NoDup_in; [|exact Hn].
    intros x y Hx Hy He. apply Hin in Hx. apply Hin in Hy.
    destruct Hx as [cx [_ ->]], Hy as [cy [_ ->]].
    apply (@rel_str_inj REPO_ROOT); auto. }
  assert (Hnd' : NoDup (sort (List.map rel_str files))).
  { apply (Permutation_NoDup (l := List.map rel_str files)); [|exact Hnd].
    apply Permutation_sym. apply sort_perm. }
  exists files. repeat split; auto.
  - apply Hin.
  - apply Hin.
  - apply sort_perm.
  - apply sorted_nodup_strict; [apply sort_sorted | exact Hnd'].
Qed.

Lemma list_openai_doc_files_known (scope : str) :
  In scope SCOPES ->
  exists roots,
    dict_get scope SCOPE_PATHS = Some roots
    /\ list_openai_doc_files scope = Ok (doc_files_of_roots roots).
Proof.
  intros H. unfold DocsTools.list_openai_doc_files.
  assert (Hk : dict_mem scope SCOPE_PATHS = true
               /\ exists roots, dict_get scope SCOPE_PATHS = Some roots).
  { unfold SCOPES in H. simpl in H.
    repeat (destruct H as [<- | H]; [split; [reflexivity | eexists; reflexivity]|]).
    contradiction. }
  destruct Hk as [Hm [roots Hg]]. exists roots. split; [exact Hg|].
  rewrite Hm, Hg. reflexivity.
Qed.


(** *** The last-update report *)

Local Abbreviation scan_mtimes := (DocsTools.scan_mtimes fs).
Local Abbreviation scan_roots := (DocsTools.scan_roots fs).
Local Abbreviation scan_scopes := (DocsTools.scan_scopes fs).
Local Abbreviation get_last_update_metadata :=
  (DocsTools.get_last_update_metadata REPO_ROOT fs).

Lemma Qgtb_lt (a b : Q) : Qgtb a b = true <-> (b < a)%Q.
Proof.
  unfold Qgtb. rewrite negb_true_iff. split.
  - intros H. apply Qnot_le_lt. intros Hle.
    apply Qle_bool_iff in Hle. congruence.
  - intros H. apply not_true_is_false. intros Hle.
    apply Qle_bool_iff in Hle. exact (Qlt_not_le _ _ H Hle).
Qed.

Lemma Qgtb_le (a b : Q) : Qgtb a b = false <-> (a <= b)%Q.
Proof.
  unfold Qgtb. rewrite negb_false_iff. apply Qle_bool_iff.
Qed.

Lemma scan_mtimes_app (a b : list path) (latest : Q * option path) :
  scan_mtimes (a ++ b) latest = scan_mtimes b (scan_mtimes a latest).
Proof.
  revert latest. induction a as [|p a IH]; intros latest; simpl; [reflexivity|].
  destruct (st_mtime fs p) as [m|]; [|apply IH].
  destruct (Qgtb m (fst latest)); apply IH.
Qed.

Lemma scan_roots_walk (roots : list path) (latest : Q * option path) :
  scan_roots roots latest = scan_mtimes (walk roots) latest.
Proof.
  revert latest. induction roots as [|root roots IH]; intros latest; simpl;
    [reflexivity|].
  destruct (candidates_of root) as [cands|].
  - rewrite scan_mtimes_app. apply IH.
  - simpl. apply IH.
Qed.

Lemma scan_scopes_walk (values : list (list path)) (latest : Q * option path) :
  scan_scopes values latest = scan_mtimes (walk (List.concat values)) latest.
Proof.
  revert latest. induction values as [|roots values IH]; intros latest; simpl;
    [reflexivity|].
  unfold walk. rewrite flat_map_app. fold (walk roots). fold (walk (List.concat values)).
  rewrite scan_mtimes_app, IH, scan_roots_walk. reflexivity.
Qed.

(** The inner loop keeps its state when no file is newer than it, and
    otherwise ends on the first file of greatest modification time. *)
Lemma scan_mtimes_newest (cands : list path) (m0 : Q) (p0 : option path) :
  let r := scan_mtimes cands (m0, p0) in
  (r = (m0, p0)
   /\ forall c t, In c cands -> st_mtime fs c = Some t -> (t <= m0)%Q)
  \/ (exists pre c post,
        cands = pre ++ c :: post
        /\ snd r = Some c
        /\ st_mtime fs c = Some (fst r)
        /\ (m0 < fst r)%Q
        /\ (forall c' t, In c' pre -> st_mtime fs c' = Some t -> (t < fst r)%Q)
        /\ (forall c' t, In c' post -> st_mtime fs c' = Some t -> (t <= fst r)%Q)).
Proof.
  revert m0 p0. induction cands as [|p cands IH]; intros m0 p0; simpl.
  - left. split; [reflexivity | intros c t []].
  - destruct (st_mtime fs p) as [m|] eqn:Em.
    + destruct (Qgtb m m0) eqn:Eg.
      * apply Qgtb_lt in Eg.
        destruct (IH m (Some p))
          as [[Hr Hall] | [pre [c [post [Hc [Hs [Hm [Hlt [Hpre Hpost]]]]]]]]].
        -- right. exists [], p, cands. rewrite Hr. simpl.
           repeat split; auto. intros c' t [].
        -- right. exists (p :: pre), c, post.
           split; [simpl; f_equal; exact Hc|].
           split; [exact Hs|]. split; [exact Hm|].
           split; [eapply Qlt_trans; eassumption|].
           split; [|exact Hpost].
           intros c' t [<- | Hin] Ht; [|eapply Hpre; eassumption].
           rewrite Em in Ht. injection Ht as <-. exact Hlt.
      * apply Qgtb_le in Eg.
        destruct (IH m0 p0)
          as [[Hr Hall] | [pre [c [post [Hc [Hs [Hm [Hlt [Hpre Hpost]]]]]]]]].
        -- left. split; [exact Hr|].
           intros c t [<- | Hin] Ht; [|eapply Hall; eassumption].
           rewrite Em in Ht. injection Ht as <-. exact Eg.
        -- right. exists (p :: pre), c, post.
           split; [simpl; f_equal; exact Hc|].
           split; [exact Hs|]. split; [exact Hm|].
           split; [exact Hlt|]. split; [|exact Hpost].
           intros c' t [<- | Hin] Ht; [|eapply Hpre; eassumption].
           rewrite Em in Ht. injection Ht as <-.
           eapply Qle_lt_trans; eassumption.
    + destruct (IH m0 p0)
        as [[Hr Hall] | [pre [c [post [Hc [Hs [Hm [Hlt [Hpre Hpost]]]]]]]]].
      * left. split; [exact Hr|].
        intros c t [<- | Hin] Ht; [congruence | eapply Hall; eassumption].
      * right. exists (p :: pre), c, post.
        split; [simpl; f_equal; exact Hc|].
        split; [exact Hs|]. split; [exact Hm|].
        split; [exact Hlt|]. split; [|exact Hpost].
        intros c' t [<- | Hin] Ht; [congruence | eapply Hpre; eassumption].
Qed.



End WithRepo.
End ToolsFacts.

(** ** The search: scope errors, completeness, the limit *)

Module SearchMore.
Import Str Py Path DocsIndex DocsTools Spec StrFacts DocsFacts.

Section WithRepo.

Variable lower : str -> str.
Variable REPO_ROOT : path.
Variable fs : FS.

Local Abbreviation rel_str := (DocsIndex.rel_str REPO_ROOT).
Local Abbreviation SCOPE_PATHS := (DocsIndex.SCOPE_PATHS REPO_ROOT).
Local Abbreviation root_files := (Spec.root_files fs).
Local Abbreviation scan_lines := (DocsIndex.scan_lines lower REPO_ROOT).
Local Abbreviation search_in_file := (DocsIndex.search_in_file lower REPO_ROOT fs).
Local Abbreviation search_files := (DocsIndex.search_files lower REPO_ROOT fs).
Local Abbreviation get_files_for_scope := (DocsIndex.get_files_for_scope REPO_ROOT fs).
Local Abbreviation search_scope := (DocsIndex.search_scope lower REPO_ROOT fs).
Local Abbreviation search_openai_docs := (DocsTools.search_openai_docs lower REPO_ROOT fs).
Local Abbreviation list_openai_doc_files :=
  (DocsTools.list_openai_doc_files REPO_ROOT fs).
Local Abbreviation get_openai_doc_section_by_header :=
  (DocsTools.get_openai_doc_section_by_header lower REPO_ROOT fs).

(** The keys of [SCOPE_PATHS] are the entries of [SCOPES]. *)
Lemma dict_mem_scopes (scope : str) :
  dict_mem scope SCOPE_PATHS = list_mem scope SCOPES.
Proof. reflexivity. Qed.

Lemma dict_get_unknown (scope : str) :
  list_mem scope SCOPES = false -> dict_get scope SCOPE_PATHS = (@None (list path)).
Proof.
  unfold list_mem, SCOPES. simpl. rewrite !orb_false_iff.
  intros [H1 [H2 [H3 [H4 [H5 [H6 [H7 _]]]]]]].
  unfold DocsIndex.SCOPE_PATHS. simpl.
  rewrite H1, H2, H3, H4, H5, H6, H7. reflexivity.
Qed.

(** X1. Every operation that takes a scope rejects an identifier that is not
    one of the seven of [SCOPES] with a [ValueError] that names it; the
    search of [docs_index] does so once the query is not blank. None of
    them reads a file for it. *)
Theorem unknown_scope_rejected (scope : str) :
  ~ In scope SCOPES ->
  get_files_for_scope scope = Err (ValueError (UnknownScope scope))
  /\ list_openai_doc_files scope = Err (ValueError (UnknownScope scope))
  /\ (forall query limit,
        is_empty query || is_empty (strip query) = false ->
        search_scope scope query limit = Err (ValueError (UnknownScope scope)))
  /\ (forall query limit,
        search_openai_docs query scope limit = Err (ValueError (UnknownScope scope)))
  /\ (forall header header_level max_lines,
        get_openai_doc_section_by_header header scope header_level max_lines
          = Err (ValueError (UnknownScope scope))).
Proof.
  intros Hs. apply list_mem_not_In in Hs.
  assert (Hf : get_files_for_scope scope = Err (ValueError (UnknownScope scope))).
  { unfold DocsIndex.get_files_for_scope. rewrite dict_mem_scopes, Hs. reflexivity. }
  split; [exact Hf|]. split; [|split; [|split]].
  - unfold DocsTools.list_openai_doc_files. rewrite dict_mem_scopes, Hs. reflexivity.
  - intros query limit Hq. unfold DocsIndex.search_scope. rewrite Hq, Hf. reflexivity.
  - intros query limit. unfold DocsTools.search_openai_docs. rewrite Hs. reflexivity.
  - intros header header_level max_lines.
    unfold DocsTools.get_openai_doc_section_by_header. rewrite Hs. reflexivity.
Qed.

(** *** What makes the search fail *)

Lemma search_files_error (files : list path) (query : str) (limit : Z)
    (results : list SearchHit) (e : exn) :
  search_files files query limit results = Err e ->
  exists pre p post per_file,
    files = pre ++ p :: post
    /\ e = OSError p
    /\ read_text fs p = None
    /\ Forall2 (fun f hits => search_in_file f query = Ok hits) pre per_file
    /\ (pre = [] \/ len (results ++ List.concat per_file) < limit).
Proof.
  revert results. induction files as [|f files IH]; intros results H.
  - discriminate.
  - change (search_files (f :: files) query limit results)
      with (bind (search_in_file f query)
              (fun hits =>
                 if len (results ++ hits) >=? limit then Ok (results ++ hits)
                 else search_files files query limit (results ++ hits))) in H.
    destruct (search_in_file f query) as [hits|e'] eqn:Ef; simpl in H.
    + destruct (len (results ++ hits) >=? limit) eqn:El; [discriminate|].
      rewrite Z.geb_leb in El. apply Z.leb_gt in El.
      destruct (IH _ H) as [pre [p [post [per [Hf [He [Hp [Hpre Hlen]]]]]]]].
      exists (f :: pre), p, post, (hits :: per). subst files.
      split; [reflexivity|]. split; [exact He|]. split; [exact Hp|].
      split; [constructor; assumption|].
      right. cbn [List.concat]. rewrite app_assoc.
      destruct Hlen as [-> | Hlen]; [|exact Hlen].
      inversion Hpre; subst. cbn [List.concat]. rewrite app_nil_r. exact El.
    + injection H as <-.
      unfold DocsIndex.search_in_file, read_text_or_raise in Ef.
      destruct (read_text fs f) as [text|] eqn:Et; simpl in Ef; [discriminate|].
      injection Ef as <-.
      exists [], f, files, []. repeat split; auto.
Qed.

(** The loop does not step over a file it cannot read: when the files
    before [p] are read and leave the hits below the limit, the loop ends
    with the [OSError] of [p]. *)
Lemma search_files_aborts (pre post : list path) (p : path)
    (per_file : list (list SearchHit)) (query : str) (limit : Z)
    (results : list SearchHit) :
  Forall2 (fun f hits => search_in_file f query = Ok hits) pre per_file ->
  read_text fs p = None ->
  pre = [] \/ len (results ++ List.concat per_file) < limit ->
  search_files (pre ++ p :: post) query limit results = Err (OSError p).
Proof.
  intros Hpre Hp. revert results.
  induction Hpre as [|f hits pre per Hf _ IH]; intros results Hlen.
  - change (search_files ([] ++ p :: post) query limit results)
      with (bind (search_in_file p query)
              (fun hits =>
                 if len (results ++ hits) >=? limit then Ok (results ++ hits)
                 else search_files post query limit (results ++ hits))).
    unfold DocsIndex.search_in_file, read_text_or_raise. rewrite Hp. reflexivity.
  - change (search_files ((f :: pre) ++ p :: post) query limit results)
      with (bind (search_in_file f query)
              (fun hits =>
                 if len (results ++ hits) >=? limit then Ok (results ++ hits)
                 else search_files (pre ++ p :: post) query limit (results ++ hits))).
    rewrite Hf. cbn [bind].
    destruct Hlen as [Hnil | Hlen]; [discriminate|].
    cbn [List.concat] in Hlen. rewrite app_assoc in Hlen.
    assert (Hlt : len (results ++ hits) < limit).
    { unfold len in *. rewrite length_app in Hlen. lia. }
    destruct (len (results ++ hits) >=? limit) eqn:El.
    { rewrite Z.geb_leb in El. apply Z.leb_le in El. lia. }
    apply IH. right. exact Hlen.
Qed.

(** X2. On a recognised scope the search fails exactly when its scan
    reaches a file it cannot read, and then with the [OSError] of that
    file. The scan reaches a file of the scope's enumeration when the query
    is not blank, the files before it are all read, and their hits
    together stay below the effective limit; an unreadable file that is
    reached is not skipped: the search returns no hits, it ends with the
    error. *)
Theorem search_scope_error (scope query : str) (limit : Z) :
  In scope SCOPES ->
  exists roots,
    dict_get scope SCOPE_PATHS = Some roots
    /\ forall e,
         search_scope scope query limit = Err e <->
         is_empty query || is_empty (strip query) = false
         /\ exists pre p post per_file,
              flat_map root_files roots = pre ++ p :: post
              /\ Forall2 (fun f hits => search_in_file f query = Ok hits)
                         pre per_file
              /\ len (List.concat per_file) < effective_limit limit
              /\ read_text fs p = None
              /\ e = OSError p.
Proof.
  intros Hs.
  destruct (@get_files_known REPO_ROOT fs scope Hs) as [roots [Hg Hf]].
  exists roots. split; [exact Hg|]. intros e.
  assert (Hpos : 0 < effective_limit limit).
  { unfold effective_limit. destruct (limit <=? 0) eqn:E; [lia|].
    apply Z.leb_gt in E. exact E. }
  destruct (is_empty query || is_empty (strip query)) eqn:Eq.
  - split.
    + intros H. unfold DocsIndex.search_scope in H. rewrite Eq in H. discriminate.
    + intros [H _]. discriminate.
  - rewrite (@search_scope_unfold lower REPO_ROOT fs scope query limit roots Eq Hg Hf).
    split.
    + intros H. split; [reflexivity|].
      destruct (search_files _ query (effective_limit limit) []) as [res|e'] eqn:Er;
        [discriminate|].
      simpl in H. injection H as <-.
      destruct (@search_files_error _ _ _ _ _ Er)
        as [pre [p [post [per [Hfl [He [Hp [Hpre Hlen]]]]]]]].
      exists pre, p, post, per. split; [exact Hfl|]. split; [exact Hpre|].
      split; [|split; assumption].
      destruct Hlen as [-> | Hlen]; [|exact Hlen].
      inversion Hpre; subst. exact Hpos.
    + intros [_ [pre [p [post [per [Hfl [Hpre [Hlen [Hp ->]]]]]]]]].
      rewrite Hfl.
      rewrite (@search_files_aborts pre post p per query (effective_limit limit) []
                 Hpre Hp (or_intror Hlen)).
      reflexivity.
Qed.

(** *** Completeness below the limit *)

Lemma scan_lines_complete (p : path) (query : str) (lines : list str)
    (i k : nat) (line : str) :
  nth_error lines k = Some line ->
  contains (lower query) (lower line) = true ->
  In {| hit_file := rel_str p;
        hit_line := Z.of_nat (i + k) + 1;
        hit_snippet := strip line |}
     (scan_lines p query i lines).
Proof.
  revert i k. induction lines as [|l lines IH]; intros i k Hn Hc.
  - destruct k; discriminate.
  - simpl. destruct k as [|k]; simpl in Hn.
    + injection Hn as ->. rewrite Hc. left. rewrite Nat.add_0_r. reflexivity.
    + assert (Hin : In {| hit_file := rel_str p;
                          hit_line := Z.of_nat (i + S k) + 1;
                          hit_snippet := strip line |}
                       (scan_lines p query (S i) lines)).
      { replace (i + S k)%nat with (S i + k)%nat by lia. apply IH; assumption. }
      destruct (contains (lower query) (lower l)); [right|]; exact Hin.
Qed.

Lemma Forall2_In_l {A B} (R : A -> B -> Prop) (l1 : list A) (l2 : list B) (x : A) :
  Forall2 R l1 l2 -> In x l1 -> exists y, In y l2 /\ R x y.
Proof.
  induction 1 as [|a b l1 l2 Hab _ IH]; simpl; [contradiction|].
  intros [<- | Hin].
  - exists b. auto.
  - destruct (IH Hin) as [y [Hy Hr]]. exists y. auto.
Qed.

(** X3. When the search returns fewer hits than its limit it has left
    nothing out: every line of every file of the scope that holds the
    query, whatever the case of the letters, is among the hits, with its
    number counted from 1 and its trimmed text. *)
Theorem search_scope_complete (scope query : str) (limit : Z)
    (hits : list SearchHit) :
  In scope SCOPES ->
  is_empty query || is_empty (strip query) = false ->
  search_scope scope query limit = Ok hits ->
  len hits < effective_limit limit ->
  exists roots,
    dict_get scope SCOPE_PATHS = Some roots
    /\ forall p text k line,
         In p (flat_map root_files roots) ->
         read_text fs p = Some text ->
         nth_error (splitlines text) k = Some line ->
         is_substring (lower query) (lower line) ->
         In {| hit_file := rel_str p;
               hit_line := Z.of_nat k + 1;
               hit_snippet := strip line |} hits.
Proof.
  intros Hs Eq H Hlt.
  destruct (@get_files_known REPO_ROOT fs scope Hs) as [roots [Hg Hf]].
  exists roots. split; [exact Hg|].
  rewrite (@search_scope_unfold lower REPO_ROOT fs scope query limit roots Eq Hg Hf) in H.
  destruct (search_files _ query (effective_limit limit) []) as [res|e] eqn:Er;
    [|discriminate].
  simpl in H. injection H as <-.
  destruct (@search_files_visited _ _ _ _ _ _ _ _ Er)
    as [visited [rest [per_file [Hv [Hp [Hr Hstop]]]]]].
  simpl in Hr.
  assert (Hshort : len res < effective_limit limit).
  { unfold len in *. rewrite length_firstn in Hlt. lia. }
  assert (Hall : firstn (Z.to_nat (effective_limit limit)) res = res).
  { apply firstn_all2. unfold len in Hshort. lia. }
  rewrite Hall.
  assert (Hrest : rest = []) by (destruct Hstop as [-> | Hge]; [reflexivity | lia]).
  subst rest. rewrite app_nil_r in Hv.
  intros p text k line Hin Ht Hn Hsub.
  rewrite Hv in Hin.
  destruct (@Forall2_In_l _ _ _ _ _ _ Hp Hin) as [hs [Hhs Hsearch]].
  subst res. apply in_concat. exists hs. split; [exact Hhs|].
  unfold DocsIndex.search_in_file, read_text_or_raise in Hsearch.
  rewrite Ht in Hsearch. simpl in Hsearch. injection Hsearch as <-.
  apply contains_substring in Hsub.
  apply (@scan_lines_complete p query (splitlines text) 0 k line Hn Hsub).
Qed.

(** *** The limit *)

Lemma search_files_extends (files : list path) (query : str) (limit : Z)
    (results res : list SearchHit) :
  search_files files query limit results = Ok res ->
  exists more, res = results ++ more.
Proof.
  intros H.
  destruct (@search_files_visited _ _ _ _ _ _ _ _ H)
    as [visited [rest [per_file [_ [_ [Hr _]]]]]].
  eauto.
Qed.

Lemma search_files_smaller_limit (files : list path) (query : str)
    (l1 l2 : Z) (results r2 : list SearchHit) :
  l1 <= l2 ->
  search_files files query l2 results = Ok r2 ->
  exists r1,
    search_files files query l1 results = Ok r1
    /\ firstn (Z.to_nat l1) r1 = firstn (Z.to_nat l1) r2.
Proof.
  intros Hle. revert results.
  induction files as [|f files IH]; intros results H; simpl in *.
  - injection H as <-. eauto.
  - destruct (search_in_file f query) as [hits|e]; [|discriminate].
    simpl in *.
    destruct (len (results ++ hits) >=? l2) eqn:E2.
    + injection H as <-.
      assert (E1 : (len (results ++ hits) >=? l1) = true).
      { rewrite Z.geb_leb in *. apply Z.leb_le in E2. apply Z.leb_le. lia. }
      rewrite E1. eauto.
    + destruct (len (results ++ hits) >=? l1) eqn:E1.
      * exists (results ++ hits). split; [reflexivity|].
        destruct (@search_files_extends _ _ _ _ _ H) as [more ->].
        rewrite Z.geb_leb in E1. apply Z.leb_le in E1.
        rewrite (firstn_app (Z.to_nat l1) (results ++ hits) more).
        assert (Hz : (Z.to_nat l1 - List.length (results ++ hits) = 0)%nat)
          by (unfold len in E1; lia).
        rewrite Hz. simpl. rewrite app_nil_r. reflexivity.
      * apply IH. exact H.
Qed.

(** X4. A search with a smaller positive limit returns the first hits of the
    search with the larger one: raising the limit only appends. *)
Theorem search_scope_limit_prefix (scope query : str) (l1 l2 : Z)
    (hits : list SearchHit) :
  0 < l1 <= l2 ->
  search_scope scope query l2 = Ok hits ->
  search_scope scope query l1 = Ok (firstn (Z.to_nat l1) hits).
Proof.
  intros [Hpos Hle] H. unfold DocsIndex.search_scope in *.
  destruct (is_empty query || is_empty (strip query)).
  - injection H as <-. rewrite firstn_nil. reflexivity.
  - assert (E1 : (l1 <=? 0) = false) by (apply Z.leb_gt; lia).
    assert (E2 : (l2 <=? 0) = false) by (apply Z.leb_gt; lia).
    rewrite E1. rewrite E2 in H.
    destruct (get_files_for_scope scope) as [files|e]; [|discriminate].
    simpl in *.
    destruct (search_files files query l2 []) as [r2|e] eqn:Er; [|discriminate].
    simpl in H. injection H as <-.
    destruct (@search_files_smaller_limit files query l1 l2 [] r2 Hle Er)
      as [r1 [Hr1 Hfirst]].
    rewrite Hr1. simpl. f_equal.
    rewrite !slice_nonneg by lia. simpl. rewrite !Nat.sub_0_r.
    rewrite firstn_firstn. rewrite Nat.min_l by lia. exact Hfirst.
Qed.

End WithRepo.
End SearchMore.

(** ** Lines and their joining *)

Module StrMore.
Import Str Py StrFacts.

(** No character of [l] is a line boundary. *)
Local Abbreviation unbroken l := (Forall (fun c => is_linebreak c = false) l).

Lemma splitlines_from_unbroken (l rest cur : str) :
  unbroken l ->
  splitlines_from cur (l ++ rest) = splitlines_from (rev l ++ cur) rest.
Proof.
  intros H. revert cur. induction H as [|c l Hc _ IH]; intros cur; simpl.
  - reflexivity.
  - rewrite Hc, IH, <- app_assoc. reflexivity.
Qed.

Lemma splitlines_from_break (cur : str) (c : N) (rest : str) :
  is_linebreak c = true ->
  (c <> CR \/ forall rest', rest <> LF :: rest') ->
  splitlines_from cur (c :: rest) = rev cur :: splitlines_from [] rest.
Proof.
  intros Hc Hn. simpl. rewrite Hc. f_equal.
  destruct rest as [|d rest']; [reflexivity|].
  destruct ((c =? CR)%N && (d =? LF)%N) eqn:E; [|reflexivity].
  apply andb_true_iff in E. destruct E as [E1 E2].
  apply N.eqb_eq in E1. apply N.eqb_eq in E2. subst.
  destruct Hn as [Hn | Hn]; [congruence | exfalso; apply (Hn rest'); reflexivity].
Qed.

(** The lines [splitlines] returns hold no line boundary. *)
Lemma splitlines_from_lines (n : nat) (s cur : str) :
  (List.length s <= n)%nat ->
  unbroken cur ->
  Forall (fun l => unbroken l) (splitlines_from cur s).
Proof.
  revert s cur. induction n as [|n IH]; intros s cur Hn Hcur.
  - destruct s; [|simpl in Hn; lia]. simpl.
    destruct (is_empty cur); constructor; [|constructor].
    apply Forall_rev. exact Hcur.
  - destruct s as [|c rest]; simpl.
    + destruct (is_empty cur); constructor; [|constructor].
      apply Forall_rev. exact Hcur.
    + simpl in Hn. destruct (is_linebreak c) eqn:Ec.
      * constructor; [apply Forall_rev; exact Hcur|].
        destruct rest as [|d rest'].
        -- apply IH; [simpl; lia | constructor].
        -- destruct ((c =? CR)%N && (d =? LF)%N).
           ++ apply IH; [simpl in Hn; lia | constructor].
           ++ apply IH; [simpl in *; lia | constructor].
      * apply IH; [lia|]. constructor; assumption.
Qed.

Lemma splitlines_lines (s : str) :
  Forall (fun l => unbroken l) (splitlines s).
Proof.
  apply (@splitlines_from_lines (List.length s)); [lia | constructor].
Qed.

Lemma join_lines_cons (l : str) (ls : list str) :
  ls <> [] -> join_lines (l :: ls) = l ++ LF :: join_lines ls.
Proof.
  unfold join_lines. destruct ls; [congruence|]. reflexivity.
Qed.

(** Splitting undoes joining, for lines without line boundaries the last
    of which is not empty. *)
Lemma splitlines_join_lines (ls : list str) :
  Forall (fun l => unbroken l) ls ->
  last ls [] <> [] ->
  splitlines (join_lines ls) = ls.
Proof.
  intros H. induction H as [|l ls Hl Hls IH]; intros Hlast.
  - simpl in Hlast. congruence.
  - destruct ls as [|l2 ls].
    + simpl in Hlast. unfold splitlines, join_lines. simpl.
      rewrite <- (app_nil_r l) at 1.
      rewrite (splitlines_from_unbroken [] [] Hl). simpl. rewrite app_nil_r.
      rewrite rev_involutive.
      destruct (rev l) eqn:Er; [|reflexivity].
      apply (f_equal (@rev N)) in Er. rewrite rev_involutive in Er.
      simpl in Er. congruence.
    + rewrite join_lines_cons by discriminate.
      unfold splitlines.
      rewrite (splitlines_from_unbroken (LF :: join_lines (l2 :: ls)) [] Hl).
      rewrite app_nil_r.
      rewrite splitlines_from_break;
        [|reflexivity | left; discriminate].
      rewrite rev_involutive. f_equal. apply IH. exact Hlast.
Qed.

Lemma join_lines_app (l1 l2 : list str) :
  l1 <> [] -> l2 <> [] ->
  join_lines (l1 ++ l2) = join_lines l1 ++ [LF] ++ join_lines l2.
Proof.
  intros H1 H2. induction l1 as [|a l1 IH]; [congruence|].
  destruct l1 as [|b l1].
  - simpl app. rewrite join_lines_cons by exact H2. reflexivity.
  - change ((a :: b :: l1) ++ l2) with (a :: (b :: l1) ++ l2).
    rewrite join_lines_cons by discriminate.
    rewrite (@join_lines_cons a (b :: l1)) by discriminate.
    rewrite IH by discriminate. rewrite <- app_assoc. reflexivity.
Qed.

Lemma firstn_plus {A} (n m : nat) (l : list A) :
  firstn (n + m) l = firstn n l ++ firstn m (skipn n l).
Proof.
  revert l. induction n as [|n IH]; intros l; simpl; [reflexivity|].
  destruct l as [|x l]; simpl.
  - rewrite firstn_nil. reflexivity.
  - f_equal. apply IH.
Qed.

(** [s.strip()] leaves nothing to strip. *)
Lemma drop_while_head (p : N -> bool) (s : str) :
  match drop_while p s with
  | [] => True
  | c :: _ => p c = false
  end.
Proof.
  induction s as [|c s IH]; simpl; [exact I|].
  destruct (p c) eqn:E; [exact IH | exact E].
Qed.

Lemma drop_while_fixed (p : N -> bool) (s : str) :
  match s with
  | [] => True
  | c :: _ => p c = false
  end ->
  drop_while p s = s.
Proof.
  destruct s as [|c s]; simpl; [reflexivity|]. intros ->. reflexivity.
Qed.

Lemma drop_while_suffix (p : N -> bool) (s : str) :
  exists pre, s = pre ++ drop_while p s /\ Forall (fun c => p c = true) pre.
Proof.
  induction s as [|c s [pre [IH Hp]]]; simpl.
  - exists []. split; [reflexivity | constructor].
  - destruct (p c) eqn:E.
    + exists (c :: pre). simpl. split; [f_equal; exact IH|].
      constructor; assumption.
    + exists []. split; [reflexivity | constructor].
Qed.

Lemma lstrip_idem (s : str) : lstrip (lstrip s) = lstrip s.
Proof.
  unfold lstrip. apply drop_while_fixed. apply drop_while_head.
Qed.

Lemma rstrip_idem (s : str) : rstrip (rstrip s) = rstrip s.
Proof.
  unfold rstrip. rewrite rev_involutive.
  rewrite (drop_while_fixed _ _ (drop_while_head is_space (rev s))). reflexivity.
Qed.

(** Trimming on the right keeps a left-trimmed string left-trimmed. *)
Lemma lstrip_rstrip (s : str) :
  lstrip s = s -> lstrip (rstrip s) = rstrip s.
Proof.
  intros Hs. unfold lstrip in *. apply drop_while_fixed.
  unfold rstrip.
  destruct (drop_while_suffix is_space (rev s)) as [pre [Hrev Hpre]].
  set (t := drop_while is_space (rev s)) in *.
  assert (Hsplit : s = rev t ++ rev pre).
  { rewrite <- rev_app_distr, <- Hrev, rev_involutive. reflexivity. }
  destruct (rev t) as [|c u] eqn:Et; [exact I|].
  rewrite Hsplit in Hs. simpl in Hs.
  destruct (is_space c) eqn:Ec; [|reflexivity].
  exfalso.
  pose proof (f_equal (@List.length N) Hs) as Hlen.
  destruct (drop_while_suffix is_space (u ++ rev pre)) as [pre' [Hd _]].
  rewrite Hd in Hlen at 2. simpl in Hlen. rewrite length_app in Hlen. lia.
Qed.

Lemma strip_idem (s : str) : strip (strip s) = strip s.
Proof.
  unfold strip.
  rewrite (@lstrip_rstrip (lstrip s) (lstrip_idem s)).
  apply rstrip_idem.
Qed.

End StrMore.

(** ** More on [read_section] and on the external paths *)

Module SectionMore.
Import Str Py Path DocsIndex DocsTools Spec StrFacts StrMore DocsFacts PathFacts.

Lemma lines_in_range_app (lines : list str) (a b c : Z) :
  1 <= a -> a - 1 <= b -> b <= c ->
  lines_in_range lines a c
    = lines_in_range lines a b ++ lines_in_range lines (b + 1) c.
Proof.
  intros Ha Hb Hc. unfold lines_in_range.
  replace (Z.to_nat (c - a + 1))
    with (Z.to_nat (b - a + 1) + Z.to_nat (c - (b + 1) + 1))%nat by lia.
  rewrite firstn_plus. f_equal. f_equal.
  rewrite skipn_skipn. f_equal. lia.
Qed.

Lemma skipn_In_list {A} (n : nat) (l : list A) (x : A) :
  In x (skipn n l) -> In x l.
Proof.
  revert l. induction n as [|n IH]; intros [|a l]; simpl; auto.
Qed.

(** A part of a path string parses back to itself. *)
Lemma split_slash_part (c cur rest : str) :
  ~ In SLASH c ->
  split_slash cur (c ++ rest) = split_slash (rev c ++ cur) rest.
Proof.
  revert cur. induction c as [|x c IH]; intros cur Hs; simpl; [reflexivity|].
  destruct (x =? SLASH)%N eqn:E.
  - apply N.eqb_eq in E. exfalso. apply Hs. left. exact E.
  - rewrite IH by (intros H; apply Hs; right; exact H).
    rewrite <- app_assoc. reflexivity.
Qed.

Lemma split_slash_join (l : list str) (c : str) :
  Forall wf_part (c :: l) ->
  split_slash [] (join [SLASH] (c :: l)) = c :: l.
Proof.
  revert c. induction l as [|d l IH]; intros c H.
  - inversion H as [|? ? [_ [_ Hs]] _]; subst. simpl.
    rewrite <- (app_nil_r c) at 1. rewrite split_slash_part by exact Hs.
    simpl. rewrite app_nil_r, rev_involutive. reflexivity.
  - inversion H as [|? ? [_ [_ Hs]] Hl]; subst.
    rewrite join_cons. rewrite split_slash_part by exact Hs.
    simpl. rewrite app_nil_r, rev_involutive. f_equal. apply IH. exact Hl.
Qed.

Lemma filter_wf_parts (l : list str) :
  Forall wf_part l ->
  filter (fun c => negb (is_empty c || Str.eqb c [DOT])) l = l.
Proof.
  induction 1 as [|c l [Hne [Hnd _]] _ IH]; simpl; [reflexivity|].
  assert (E1 : is_empty c = false) by (destruct c; [congruence | reflexivity]).
  assert (E2 : Str.eqb c [DOT] = false) by (apply eqb_neq; exact Hnd).
  rewrite E1, E2, IH. reflexivity.
Qed.

Lemma startswith_single (x a : N) (t : str) :
  startswith (x :: t) [a] = (a =? x)%N.
Proof.
  change (startswith (x :: t) [a]) with ((a =? x)%N && startswith t []).
  destruct t; apply andb_true_r.
Qed.

Lemma startswith_cons (x a : N) (t pre : str) :
  startswith (x :: t) (a :: pre) = (a =? x)%N && startswith t pre.
Proof. reflexivity. Qed.

(** A string that does not start with two slashes has the root [/] or
    none. *)
Lemma of_str_single (s : str) :
  startswith s [SLASH; SLASH] = false ->
  of_str s =
    {| anchored := startswith s [SLASH];
       parts := filter (fun c => negb (is_empty c || Str.eqb c [DOT]))
                       (split_slash [] s) |}.
Proof.
  intros H. unfold of_str. rewrite H. reflexivity.
Qed.

(** The string of proper parts does not start with a slash. *)
Lemma join_wf_head (l : list str) :
  Forall wf_part l -> startswith (join [SLASH] l) [SLASH] = false.
Proof.
  intros H. destruct H as [|c l [Hne [_ Hs]] _]; [reflexivity|].
  rewrite join_cons. destruct c as [|x c]; [congruence|]. simpl app.
  rewrite startswith_single.
  destruct (SLASH =? x)%N eqn:E; [|reflexivity].
  apply N.eqb_eq in E. exfalso. apply Hs. left. symmetry. exact E.
Qed.

Lemma startswith_longer (s : str) (a b : N) :
  startswith s [a] = false -> startswith s [a; b] = false.
Proof.
  destruct s as [|x t]; [reflexivity|].
  rewrite startswith_single, startswith_cons. intros ->. reflexivity.
Qed.

Lemma of_str_to_str_relative (r : list str) :
  Forall wf_part r ->
  of_str (to_str {| anchored := false; parts := r |})
    = {| anchored := false; parts := r |}.
Proof.
  intros H. unfold to_str. cbn [anchored parts]. destruct r as [|c l].
  - reflexivity.
  - rewrite of_str_single by (apply startswith_longer, join_wf_head, H).
    rewrite (split_slash_join H), (filter_wf_parts H), (join_wf_head H).
    reflexivity.
Qed.

Lemma of_str_to_str_anchored (l : list str) :
  Forall wf_part l ->
  of_str (to_str {| anchored := true; parts := l |})
    = {| anchored := true; parts := l |}.
Proof.
  intros H. rewrite (to_str_anchored_wf H).
  rewrite of_str_single
    by (rewrite startswith_cons, (join_wf_head H); apply andb_false_r).
  f_equal.
  - rewrite startswith_single. apply N.eqb_refl.
  - change (split_slash [] (SLASH :: join [SLASH] l))
      with ([] :: split_slash [] (join [SLASH] l)).
    destruct l as [|c l]; [reflexivity|].
    rewrite (split_slash_join H). cbn [filter is_empty orb negb].
    apply (filter_wf_parts H).
Qed.

Lemma strip_prefix_refl (pre r : list str) : strip_prefix pre (pre ++ r) = Some r.
Proof.
  induction pre as [|a pre IH]; simpl; [reflexivity|].
  rewrite eqb_refl. exact IH.
Qed.

Section WithRepo.

Variable lower : str -> str.
Variable REPO_ROOT : path.
Variable fs : FS.

Local Abbreviation rel_str := (DocsIndex.rel_str REPO_ROOT).
Local Abbreviation docs_path := (DocsIndex.docs_path REPO_ROOT).
Local Abbreviation read_section := (DocsIndex.read_section REPO_ROOT fs).
Local Abbreviation search_scope := (DocsIndex.search_scope lower REPO_ROOT fs).
Local Abbreviation search_openai_docs := (DocsTools.search_openai_docs lower REPO_ROOT fs).

(** X12. The path a hit or a slice names leads back to the file: for an
    absolute path with regular parts, parsing its external string and
    taking it under [REPO_ROOT] gives the path again, be the file under
    [REPO_ROOT] or not. *)
Theorem rel_str_round_trip (p : path) :
  anchored p = true ->
  Forall wf_part (parts p) ->
  truediv REPO_ROOT (of_str (rel_str p)) = p
  /\ docs_path (rel_str p) = p.
Proof.
  intros Ha Hp.
  assert (H : truediv REPO_ROOT (of_str (rel_str p)) = p
              /\ (anchored (of_str (rel_str p)) = true -> of_str (rel_str p) = p)).
  { destruct p as [a l]. cbn [anchored parts] in Ha, Hp. subst a.
    unfold DocsIndex.rel_str, relative_to.
    rewrite (double_wf true Hp). cbn [anchored parts].
    destruct (anchored REPO_ROOT) eqn:Er; [destruct (double REPO_ROOT)|];
      cbn [Bool.eqb andb].
    - rewrite (of_str_to_str_anchored Hp). unfold truediv.
      cbn [anchored parts]. auto.
    - destruct (strip_prefix (parts REPO_ROOT) l) as [r|] eqn:Es.
      + apply strip_prefix_app in Es. subst l.
        apply Forall_app in Hp. destruct Hp as [_ Hr].
        rewrite (of_str_to_str_relative Hr). unfold truediv.
        cbn [anchored parts]. rewrite Er.
        split; [reflexivity | intros H0; discriminate H0].
      + rewrite (of_str_to_str_anchored Hp). unfold truediv.
        cbn [anchored parts]. auto.
    - rewrite (of_str_to_str_anchored Hp). unfold truediv.
      cbn [anchored parts]. auto. }
  destruct H as [H1 H2]. split; [exact H1|].
  unfold DocsIndex.docs_path, is_absolute.
  destruct (anchored (of_str (rel_str p))) eqn:E; simpl; auto.
Qed.


(** X9. Two adjacent line ranges of a file read as one: the content of lines
    [a] to [c] is the content of lines [a] to [b], a newline, and the
    content of lines [b + 1] to [c], and the line counts add up. *)
Theorem read_section_adjacent (file : str) (a b c : Z) (max_lines : Z)
    (text : str) :
  exists_ fs (docs_path file) = true ->
  read_text fs (docs_path file) = Some text ->
  1 <= a <= b -> b < c -> c <= len (splitlines text) ->
  exists s1 s2 s,
    read_section file a (Some b) max_lines = Ok s1
    /\ read_section file (b + 1) (Some c) max_lines = Ok s2
    /\ read_section file a (Some c) max_lines = Ok s
    /\ sec_content s = sec_content s1 ++ [LF] ++ sec_content s2
    /\ sec_line_count s = sec_line_count s1 + sec_line_count s2
    /\ sec_start_line s = sec_start_line s1
    /\ sec_end_line s = sec_end_line s2.
Proof.
  intros He Ht Hab Hbc Hc.
  set (lines := splitlines text) in *.
  assert (R1 := @read_section_range REPO_ROOT fs file a (Some b) max_lines text He Ht).
  assert (R2 := @read_section_range REPO_ROOT fs file (b + 1) (Some c) max_lines text He Ht).
  assert (R3 := @read_section_range REPO_ROOT fs file a (Some c) max_lines text He Ht).
  cbv zeta in R1, R2, R3. fold lines in R1, R2, R3.
  rewrite R1, R2, R3 by lia.
  do 3 eexists. repeat (split; [reflexivity|]).
  cbn [sec_content sec_line_count sec_start_line sec_end_line].
  replace (Z.min b (len lines)) with b by lia.
  replace (Z.min c (len lines)) with c by lia.
  rewrite (@lines_in_range_app lines a b c) by lia.
  assert (L1 : len (lines_in_range lines a b) = b - a + 1)
    by (apply lines_in_range_length; lia).
  assert (L2 : len (lines_in_range lines (b + 1) c) = c - (b + 1) + 1)
    by (apply lines_in_range_length; lia).
  split; [|split; [|split; reflexivity]].
  - apply join_lines_app.
    + intros E. rewrite E in L1. unfold len in L1. simpl in L1. lia.
    + intros E. rewrite E in L2. unfold len in L2. simpl in L2. lia.
  - unfold len in *. rewrite length_app. lia.
Qed.

(** X10. Splitting the content of a slice into lines gives back the lines of
    the file the slice covers, [line_count] of them, unless the last of
    them is empty. *)
Theorem read_section_content_lines (file : str) (start_line : Z)
    (end_line : option Z) (max_lines : Z) (s : SectionSlice) :
  1 <= max_lines ->
  read_section file start_line end_line max_lines = Ok s ->
  exists text,
    read_text fs (docs_path file) = Some text
    /\ let covered :=
         lines_in_range (splitlines text) (sec_start_line s) (sec_end_line s) in
       (last covered [] <> [] ->
        splitlines (sec_content s) = covered
        /\ len (splitlines (sec_content s)) = sec_line_count s).
Proof.
  intros Hm Hr.
  destruct (@read_section_invariant REPO_ROOT fs file start_line end_line
              max_lines s Hm Hr) as [text [Ht Hinv]].
  exists text. split; [exact Ht|]. intros covered Hlast.
  destruct Hinv as [_ [_ [_ [Hc Hl]]]]. fold covered in Hc, Hl.
  assert (Hsplit : splitlines (sec_content s) = covered).
  { rewrite Hc. apply splitlines_join_lines; [|exact Hlast].
    unfold covered, lines_in_range.
    apply Forall_forall. intros l Hin.
    apply firstn_In in Hin. apply skipn_In_list in Hin.
    pose proof (splitlines_lines text) as Hall.
    rewrite Forall_forall in Hall. apply Hall. exact Hin. }
  split; [exact Hsplit|]. rewrite Hsplit. exact Hl.
Qed.

(** X5. The tool trims the query before it searches: a query and its trimmed
    form give the same result, and so do two queries that differ only in
    the whitespace around them. *)
Theorem search_openai_docs_trims (query scope : str) (limit : Z) :
  search_openai_docs query scope limit
    = search_openai_docs (strip query) scope limit.
Proof.
  unfold DocsTools.search_openai_docs.
  destruct (negb (list_mem scope SCOPES)); [reflexivity|].
  rewrite strip_idem.
  destruct query as [|c q]; [reflexivity|].
  cbn [is_empty].
  destruct (strip (c :: q)) as [|d t] eqn:Es; reflexivity.
Qed.

End WithRepo.
End SectionMore.

(** ** The header tool, the listing and the search together *)

Module ToolsMore.
Import Str Py Path DocsIndex DocsTools Spec.
Import StrFacts StrMore DocsFacts PathFacts SortFacts ToolsFacts SearchMore SectionMore.

Lemma take_while_all {A} (p : A -> bool) (l : list A) :
  Forall (fun x => p x = true) (take_while p l).
Proof.
  induction l as [|x l IH]; simpl; [constructor|].
  destruct (p x) eqn:E; constructor; assumption.
Qed.

Lemma Forall_firstn {A} (P : A -> Prop) (n : nat) (l : list A) :
  Forall P l -> Forall P (firstn n l).
Proof.
  intros H. apply Forall_forall. intros x Hx.
  rewrite Forall_forall in H. apply H. apply (firstn_In _ _ _ Hx).
Qed.

Section WithRepo.

Variable lower : str -> str.
Variable REPO_ROOT : path.
Variable fs : FS.

Local Abbreviation rel_str := (DocsIndex.rel_str REPO_ROOT).
Local Abbreviation SCOPE_PATHS := (DocsIndex.SCOPE_PATHS REPO_ROOT).
Local Abbreviation root_files := (Spec.root_files fs).
Local Abbreviation header_match := (Spec.header_match lower).
Local Abbreviation candidate := (Spec.candidate fs).
Local Abbreviation search_in_file := (DocsIndex.search_in_file lower REPO_ROOT fs).
Local Abbreviation search_files := (DocsIndex.search_files lower REPO_ROOT fs).
Local Abbreviation get_files_for_scope := (DocsIndex.get_files_for_scope REPO_ROOT fs).
Local Abbreviation search_scope := (DocsIndex.search_scope lower REPO_ROOT fs).
Local Abbreviation find_header := (DocsTools.find_header lower).
Local Abbreviation extract_section_from_lines :=
  (DocsTools.extract_section_from_lines lower).
Local Abbreviation extract_section_by_header_from_file :=
  (DocsTools._extract_section_by_header_from_file lower REPO_ROOT fs).
Local Abbreviation first_section := (DocsTools.first_section lower REPO_ROOT fs).
Local Abbreviation get_openai_doc_section_by_header :=
  (DocsTools.get_openai_doc_section_by_header lower REPO_ROOT fs).
Local Abbreviation list_openai_doc_files :=
  (DocsTools.list_openai_doc_files REPO_ROOT fs).
Local Abbreviation doc_files_of_roots := (DocsTools.doc_files_of_roots REPO_ROOT fs).
Local Abbreviation collect_files := (DocsTools.collect_files fs).
Local Abbreviation candidates_of := (DocsTools.candidates_of fs).

(** *** The header extractor on one file *)

(** X13. The extractor returns nothing, and raises nothing, for a path that is
    not a regular file; it raises the [OSError] of a regular file it
    cannot read; and on a file it reads it returns nothing exactly when
    no line is a heading whose text, left-trimmed and lower-cased, is the
    trimmed and lower-cased header at the requested level. *)
Theorem extract_section_nothing (relative_file header : str)
    (header_level max_lines : option Z) :
  let p := truediv REPO_ROOT (of_str relative_file) in
  let r := extract_section_by_header_from_file relative_file header
             header_level max_lines in
  (is_file fs p = false -> r = Ok None)
  /\ (is_file fs p = true -> read_text fs p = None -> r = Err (OSError p))
  /\ (forall text,
        is_file fs p = true -> read_text fs p = Some text ->
        (r = Ok None <->
         Forall (fun l => header_match (lower (strip header)) header_level l = None)
                (splitlines text))).
Proof.
  intros p r. subst r. unfold DocsTools._extract_section_by_header_from_file.
  fold p. split; [|split].
  - intros ->. reflexivity.
  - intros -> Ht. unfold read_text_or_raise. rewrite Ht. reflexivity.
  - intros text -> Ht. unfold read_text_or_raise. rewrite Ht. simpl.
    unfold DocsTools.extract_section_from_lines.
    destruct (find_header (lower (strip header)) header_level 0 (splitlines text))
      as [[start_idx level]|] eqn:Hh; cbv zeta; split; intros H.
    + discriminate H.
    + apply (find_header_none lower (lower (strip header)) header_level
               (splitlines text) 0) in H.
      rewrite Hh in H. discriminate H.
    + apply (find_header_none lower (lower (strip header)) header_level
               (splitlines text) 0). exact Hh.
    + reflexivity.
Qed.

(** X14. A section the extractor returns, for a line cap of at least 1,
    starts with the first line of the file, top to bottom, that the
    match accepts, at the requested level when one is given, and no later
    line of it starts, after left-trimming, with [#] characters numbering
    at most the level of that heading: the section holds no heading of
    its own level or above besides its first line. *)
Theorem extract_section_body (relative_file header : str)
    (header_level : option Z) (max_lines : Z) (lines : list str)
    (s : SectionSlice) :
  1 <= max_lines ->
  extract_section_from_lines relative_file lines header header_level
    (Some max_lines) = Some s ->
  exists heading body level,
    sec_content s = join_lines (heading :: body)
    /\ nth_error lines (Z.to_nat (sec_start_line s - 1)) = Some heading
    /\ header_match (lower (strip header)) header_level heading = Some level
    /\ (forall l, header_level = Some l -> Z.of_nat level = l)
    /\ Forall (fun l => header_match (lower (strip header)) header_level l = None)
         (firstn (Z.to_nat (sec_start_line s - 1)) lines)
    /\ Forall (fun l => ends_section level l = false) body.
Proof.
  intros Hm H.
  destruct (find_header (lower (strip header)) header_level 0 lines)
    as [[start_idx level]|] eqn:Hh.
  2:{ unfold DocsTools.extract_section_from_lines in H. rewrite Hh in H.
      discriminate. }
  assert (Hcap : forall m, Some max_lines = Some m -> 0 <= m)
    by (intros m E; injection E as <-; lia).
  rewrite (@extract_section_found lower relative_file lines header header_level
             (Some max_lines) start_idx level Hh Hcap) in H.
  injection H as <-.
  apply find_header_first in Hh.
  destruct Hh as [pre [heading [post [Hl [Hk [Hmatch Hpre]]]]]].
  simpl in Hk. subst start_idx lines.
  rewrite section_until_split. cbn [truncate].
  exists heading,
    (firstn (Z.to_nat max_lines - 1)
       (take_while (fun l => negb (ends_section level l)) post)), level.
  cbn [sec_content sec_start_line].
  replace (Z.to_nat max_lines) with (S (Z.to_nat max_lines - 1)) at 1 by lia.
  cbn [firstn].
  replace (Z.to_nat (Z.of_nat (List.length pre) + 1 - 1)) with (List.length pre)
    by lia.
  split; [reflexivity|]. split; [|split; [exact Hmatch|split; [|split]]].
  - rewrite nth_error_app2 by lia. rewrite Nat.sub_diag. reflexivity.
  - intros l ->. destruct (@header_match_level _ _ _ _ _ Hmatch) as [_ Hok].
    simpl in Hok. apply Z.eqb_eq in Hok. exact Hok.
  - rewrite firstn_app, Nat.sub_diag, firstn_all. simpl. rewrite app_nil_r.
    exact Hpre.
  - apply Forall_firstn.
    eapply Forall_impl; [|apply take_while_all].
    intros l Hl. simpl in Hl. apply negb_true_iff in Hl. exact Hl.
Qed.

Lemma extract_section_file_name (relative_file header : str)
    (header_level max_lines : option Z) (s : SectionSlice) :
  extract_section_by_header_from_file relative_file header header_level max_lines
    = Ok (Some s) ->
  sec_file s = relative_file.
Proof.
  unfold DocsTools._extract_section_by_header_from_file.
  destruct (negb (is_file fs _)); [discriminate|].
  destruct (read_text_or_raise fs _) as [text|]; [|discriminate]. simpl.
  unfold DocsTools.extract_section_from_lines.
  destruct (find_header _ _ _ _) as [[start_idx level]|]; [|discriminate].
  cbv zeta. intros H. injection H as <-. reflexivity.
Qed.

(** *** The header tool *)

(** A hit whose file the tool passes over: it has no file name or the
    extractor finds no heading in its file. *)
Local Abbreviation passed_over header header_level max_lines :=
  (fun h : SearchHit =>
     hit_file h = []
     \/ extract_section_by_header_from_file (hit_file h) header header_level
          max_lines = Ok None).

Lemma first_section_found (hits : list SearchHit) (header : str)
    (header_level max_lines : option Z) (s : SectionSlice) :
  first_section hits header header_level max_lines = Ok (Some s) ->
  exists pre m post,
    hits = pre ++ m :: post
    /\ extract_section_by_header_from_file (hit_file m) header header_level
         max_lines = Ok (Some s)
    /\ Forall (passed_over header header_level max_lines) pre.
Proof.
  induction hits as [|h hits IH]; simpl; [discriminate|].
  destruct (is_empty (hit_file h)) eqn:Ee.
  - intros H. destruct (IH H) as [pre [m [post [Hh [Hx Hp]]]]].
    exists (h :: pre), m, post. subst hits. repeat split; auto.
    constructor; [|exact Hp]. left. apply is_empty_nil. exact Ee.
  - destruct (extract_section_by_header_from_file (hit_file h) header
                header_level max_lines) as [[s'|]|e] eqn:Ex; simpl.
    + intros H. injection H as <-. exists [], h, hits. repeat split; auto.
    + intros H. destruct (IH H) as [pre [m [post [Hh [Hx Hp]]]]].
      exists (h :: pre), m, post. subst hits. repeat split; auto.
    + discriminate.
Qed.

Lemma first_section_none (hits : list SearchHit) (header : str)
    (header_level max_lines : option Z) :
  first_section hits header header_level max_lines = Ok None <->
  Forall (passed_over header header_level max_lines) hits.
Proof.
  induction hits as [|h hits IH]; simpl.
  - split; [constructor | reflexivity].
  - destruct (is_empty (hit_file h)) eqn:Ee.
    + rewrite IH. split; intros H.
      * constructor; [left; apply is_empty_nil; exact Ee | exact H].
      * inversion H; assumption.
    + assert (Hne : hit_file h <> []).
      { intros E. apply is_empty_nil in E. congruence. }
      destruct (extract_section_by_header_from_file (hit_file h) header
                  header_level max_lines) as [[s'|]|e] eqn:Ex; simpl.
      * split; [discriminate|]. intros H. inversion H as [|? ? [Hx | Hx] _]; subst;
          [contradiction | congruence].
      * rewrite IH. split; intros H.
        -- constructor; [right; exact Ex | exact H].
        -- inversion H; assumption.
      * split; [discriminate|]. intros H. inversion H as [|? ? [Hx | Hx] _]; subst;
          [contradiction | congruence].
Qed.

Lemma search_scope_bound (scope query : str) (limit : Z) (hits : list SearchHit) :
  search_scope scope query limit = Ok hits -> len hits <= effective_limit limit.
Proof.
  unfold DocsIndex.search_scope. fold (effective_limit limit).
  pose proof (effective_limit_pos limit) as Hpos.
  destruct (is_empty query || is_empty (strip query)).
  - intros H. injection H as <-. unfold len. simpl. lia.
  - destruct (get_files_for_scope scope) as [files|e]; [|discriminate]. simpl.
    destruct (search_files files query (effective_limit limit) []) as [res|e];
      [|discriminate].
    simpl. intros H. injection H as <-.
    rewrite slice_nonneg by lia. unfold len. rewrite length_firstn. lia.
Qed.

(** X15. A section the header tool returns comes from one of the at most
    eight hits of the search for the header in the scope: it is what the
    extractor returns for the file of the first hit, in the order of the
    search, for which it returns a section, and it names that file. *)
Theorem section_by_header_found (header scope : str)
    (header_level max_lines : option Z) (s : SectionSlice) :
  get_openai_doc_section_by_header header scope header_level max_lines = Ok s ->
  In scope SCOPES
  /\ exists pre m post,
       search_scope scope header 8 = Ok (pre ++ m :: post)
       /\ len (pre ++ m :: post) <= 8
       /\ extract_section_by_header_from_file (hit_file m) header header_level
            max_lines = Ok (Some s)
       /\ sec_file s = hit_file m
       /\ Forall (passed_over header header_level max_lines) pre.
Proof.
  unfold DocsTools.get_openai_doc_section_by_header.
  destruct (list_mem scope SCOPES) eqn:Es; [|discriminate]. simpl.
  destruct (search_scope scope header 8) as [hits|e] eqn:Eh; [|discriminate].
  simpl.
  destruct (first_section hits header header_level max_lines) as [[s'|]|e] eqn:Ef;
    try discriminate.
  simpl. intros H. injection H as ->.
  split; [exact (proj1 (list_mem_In scope SCOPES) Es)|].
  destruct (@first_section_found _ _ _ _ _ Ef) as [pre [m [post [Hh [Hx Hp]]]]].
  exists pre, m, post. subst hits.
  split; [reflexivity|]. split; [apply (@search_scope_bound _ _ _ _ Eh)|].
  split; [exact Hx|]. split; [apply (@extract_section_file_name _ _ _ _ _ Hx) | exact Hp].
Qed.

(** X16. On a recognised scope the header tool raises its not-found
    [ValueError] exactly when the extractor finds the heading in the file
    of none of the search hits; it does not look at the other files of
    the scope. For a blank header there is no hit and it always raises
    it. *)
Theorem section_by_header_not_found (header scope : str)
    (header_level max_lines : option Z) (hits : list SearchHit) :
  In scope SCOPES ->
  search_scope scope header 8 = Ok hits ->
  (get_openai_doc_section_by_header header scope header_level max_lines
     = Err (ValueError (HeaderNotFound header header_level scope))
   <-> Forall (passed_over header header_level max_lines) hits)
  /\ (blank header -> hits = []).
Proof.
  intros Hs Hh. split.
  - unfold DocsTools.get_openai_doc_section_by_header.
    apply list_mem_In in Hs. rewrite Hs, Hh. simpl.
    rewrite <- first_section_none.
    destruct (first_section hits header header_level max_lines) as [[s'|]|e] eqn:Ef;
      simpl; split; intros H; try discriminate; try reflexivity.
    exfalso. clear - Ef H. injection H as ->.
    revert Ef. induction hits as [|h hits IH]; simpl; [discriminate|].
    destruct (is_empty (hit_file h)); [exact IH|].
    unfold DocsTools._extract_section_by_header_from_file.
    destruct (negb (is_file fs _)); simpl; [exact IH|].
    unfold read_text_or_raise.
    destruct (read_text fs _); simpl; [|intros H0; discriminate H0].
    destruct (extract_section_from_lines _ _ _ _ _);
      [intros H0; discriminate H0 | exact IH].
  - intros Hb. unfold DocsIndex.search_scope in Hh.
    rewrite (blank_query_test Hb) in Hh. injection Hh as <-. reflexivity.
Qed.

(** *** The listing and the search *)

(** X17. Every file the search of a scope opens is in the listing of that
    scope, under the external path of its resolved path. A root is taken
    to be a regular file or a directory, not both. *)
Theorem listing_covers_search (scope : str) (files : list path)
    (result : list str) :
  (forall p, is_file fs p = true -> is_dir fs p = false) ->
  get_files_for_scope scope = Ok files ->
  list_openai_doc_files scope = Ok result ->
  forall f, In f files -> In (rel_str (resolve fs f)) result.
Proof.
  clear lower.
  intros Hex Hf Hl f Hin.
  unfold DocsIndex.get_files_for_scope in Hf.
  unfold DocsTools.list_openai_doc_files in Hl.
  destruct (negb (dict_mem scope SCOPE_PATHS)); [discriminate|].
  destruct (dict_get scope SCOPE_PATHS) as [roots|]; [|discriminate].
  injection Hf as <-. injection Hl as <-.
  rewrite files_of_roots_flat_map in Hin. simpl in Hin.
  apply in_flat_map in Hin. destruct Hin as [root [Hroot Hfr]].
  assert (Hc : candidate roots f).
  { unfold Spec.candidate, DocsTools.candidates_of.
    unfold Spec.root_files in Hfr.
    destruct (is_file fs root) eqn:Ef.
    - rewrite (Hex root Ef) in Hfr.
      destruct (Str.eqb (suffix root) (lit ".md")); simpl in Hfr; [|contradiction].
      exists root, [root]. rewrite Ef. auto.
    - simpl in Hfr. destruct (is_dir fs root) eqn:Ed; [|contradiction].
      exists root, (rglob_md fs root). rewrite Ef, Ed. auto. }
  unfold DocsTools.doc_files_of_roots.
  apply (Permutation_in (l := List.map rel_str (snd (collect_files roots ([], []))))).
  - apply Permutation_sym. apply sort_perm.
  - apply in_map.
    assert (Hinv0 : dedup_inv ([] : list path, [] : list path)).
    { split; simpl; [constructor | tauto]. }
    apply (@collect_files_In fs roots ([], []) (resolve fs f) Hinv0).
    right. exists f. split; [exact Hc | reflexivity].
Qed.

End WithRepo.
End ToolsMore.

(** ** Success conditions and limits of the tools *)

Module ApiMore.
Import Str Py Path DocsIndex DocsTools DocsToolsMore Spec.
Import StrFacts StrMore DocsFacts ToolsFacts SearchMore ToolsMore.

Section WithRepo.

Variable lower : str -> str.
Variable REPO_ROOT : path.
Variable fs : FS.

Local Abbreviation SCOPE_PATHS := (DocsIndex.SCOPE_PATHS REPO_ROOT).
Local Abbreviation docs_path := (DocsIndex.docs_path REPO_ROOT).
Local Abbreviation read_section := (DocsIndex.read_section REPO_ROOT fs).
Local Abbreviation get_files_for_scope := (DocsIndex.get_files_for_scope REPO_ROOT fs).
Local Abbreviation search_scope := (DocsIndex.search_scope lower REPO_ROOT fs).
Local Abbreviation search_openai_docs := (DocsTools.search_openai_docs lower REPO_ROOT fs).
Local Abbreviation list_openai_doc_files :=
  (DocsTools.list_openai_doc_files REPO_ROOT fs).


(** X6. The search tool returns at most [limit] hits, and at most 10, not
    the 20 of [search_scope], when [limit] is not positive. *)
Theorem search_openai_docs_bound (query scope : str) (limit : Z)
    (hits : list SearchHit) :
  search_openai_docs query scope limit = Ok hits ->
  len hits <= (if limit <=? 0 then 10 else limit).
Proof.
  unfold DocsTools.search_openai_docs.
  destruct (negb (list_mem scope SCOPES)); [discriminate|]. cbv zeta.
  assert (Hpos : 0 < (if limit <=? 0 then 10 else limit)).
  { destruct (limit <=? 0) eqn:E; [lia | apply Z.leb_gt in E; exact E]. }
  match goal with
  | |- context [if is_empty ?q then Ok [] else _] => destruct (is_empty q)
  end.
  - intros H. injection H as <-. unfold len. simpl. lia.
  - intros H.
    pose proof (@search_scope_bound lower REPO_ROOT fs _ _ _ _ H) as Hb.
    unfold effective_limit in Hb.
    destruct ((if limit <=? 0 then 10 else limit) <=? 0) eqn:E;
      [apply Z.leb_le in E; lia | exact Hb].
Qed.

(** X11. [read_section] returns a slice exactly when the file exists and is
    read, the start line, taken as 1 when it is below 1, is not past the
    last line, and the end line, when one is given, is not below that
    start line. *)
Theorem read_section_succeeds_iff (file : str) (start_line : Z)
    (end_line : option Z) (max_lines : Z) :
  (exists s, read_section file start_line end_line max_lines = Ok s)
  <->
  (exists_ fs (docs_path file) = true
   /\ exists text,
        read_text fs (docs_path file) = Some text
        /\ Z.max 1 start_line <= len (splitlines text)
        /\ forall e, end_line = Some e -> Z.max 1 start_line <= e).
Proof.
  destruct (exists_ fs (docs_path file)) eqn:He.
  2:{ rewrite (@read_section_missing REPO_ROOT fs file start_line end_line
                 max_lines He).
      split; [intros [s H]; discriminate | intros [H _]; discriminate]. }
  destruct (read_text fs (docs_path file)) as [text|] eqn:Ht.
  2:{ unfold DocsIndex.read_section, read_text_or_raise. rewrite He, Ht. simpl.
      split; [intros [s H]; discriminate | intros [_ [t [H _]]]; discriminate]. }
  rewrite (@read_section_lines REPO_ROOT fs file start_line end_line max_lines
             text He Ht).
  cbv zeta. rewrite clamp_start_max.
  set (start := Z.max 1 start_line). set (total := len (splitlines text)).
  split.
  - intros [s H]. split; [reflexivity|]. exists text. split; [reflexivity|].
    destruct (start - 1 >=? total) eqn:E; [discriminate|].
    rewrite Z.geb_leb in E. apply Z.leb_gt in E. split; [lia|].
    intros e ->. destruct (e <? start) eqn:Ee; [discriminate|].
    apply Z.ltb_ge in Ee. exact Ee.
  - intros [_ [t [Et [Hs Hend]]]].
    assert (t = text) by congruence. subst t. fold total in Hs.
    assert (E : (start - 1 >=? total) = false).
    { rewrite Z.geb_leb. apply Z.leb_gt. lia. }
    rewrite E. destruct end_line as [e|].
    + assert (Ee : (e <? start) = false).
      { apply Z.ltb_ge. apply Hend. reflexivity. }
      rewrite Ee. simpl. eauto.
    + simpl. eauto.
Qed.

(** X7. On a file that is read, a start line within the file and an end line
    not below it, or no end line and a window that does not reach before
    the start of the file, [read_section] returns the lines from the
    start line to the effective end, the smaller of the requested end and
    the last line, and counts them. *)
Theorem read_section_returns_range (file : str) (start_line : Z) (end_line : option Z)
    (max_lines : Z) (text : str) :
  exists_ fs (docs_path file) = true ->
  read_text fs (docs_path file) = Some text ->
  let lines := splitlines text in
  1 <= start_line <= len lines ->
  match end_line with
  | Some e => start_line <= e
  | None => 0 <= max_lines
  end ->
  let effective_end :=
    match end_line with
    | Some e => Z.min e (len lines)
    | None => Z.min (start_line - 1 + max_lines) (len lines)
    end in
  exists s,
    read_section file start_line end_line max_lines = Ok s
    /\ sec_start_line s = start_line
    /\ sec_end_line s = effective_end
    /\ sec_content s = join_lines (lines_in_range lines start_line effective_end)
    /\ sec_line_count s = effective_end - start_line + 1
    /\ len (lines_in_range lines start_line effective_end) = sec_line_count s.
Proof.
  intros He Ht lines Hs Hend effective_end.
  assert (Hend' : match end_line with
                  | Some e => start_line <= e
                  | None => 0 <= start_line - 1 + max_lines
                  end).
  { destruct end_line; lia. }
  pose proof (@read_section_range REPO_ROOT fs file start_line end_line
                max_lines text He Ht) as R.
  cbv zeta in R. fold lines in R. specialize (R Hs Hend').
  fold effective_end in R. rewrite R. eexists. split; [reflexivity|].
  cbn [sec_start_line sec_end_line sec_content sec_line_count].
  assert (Hlen : len (lines_in_range lines start_line effective_end)
                 = effective_end - start_line + 1).
  { apply lines_in_range_length; subst effective_end; destruct end_line; lia. }
  repeat split; auto.
Qed.

End WithRepo.
End ApiMore.

(* ================================================================== *)
(** * Worked examples on the small repository *)
(* ================================================================== *)

Module Worked.
Import Str Py Path DocsIndex DocsTools Spec Example.
Import StrFacts DocsFacts PathFacts SortFacts ToolsFacts.
Local Open Scope string_scope.

Lemma normalize_wf (p : path) : wf_resolved (normalize p).
Proof.
  unfold wf_resolved, normalize. simpl. split; [reflexivity|].
  apply Forall_forall. intros c Hc. apply filter_In in Hc.
  destruct Hc as [_ Hg]. unfold good_part in Hg.
  rewrite !andb_true_iff, !negb_true_iff in Hg.
  destruct Hg as [[Hne Hnd] Hns]. unfold wf_part. repeat split.
  - intros ->. discriminate.
  - intros ->. discriminate.
  - intros Hin. apply not_true_iff_false in Hns. apply Hns.
    apply existsb_exists. exists SLASH. split; [exact Hin | reflexivity].
Qed.

Lemma scope_known (scope : string) :
  In scope ["unified"; "api"; "guides"; "python"; "node"; "agents"; "cookbook"]%string ->
  In (lit scope) SCOPES.
Proof.
  intros H. unfold SCOPES. simpl in H.
  repeat (destruct H as [<- | H]; [simpl; tauto|]). contradiction.
Qed.

(** *** The query is tested before the scope *)

Lemma search_blank_query_witness :
  search_scope ascii_lower root fs1 (lit "nope") (lit "  ") 5 = Ok []
  /\ search_openai_docs ascii_lower root fs1 (lit "  ") (lit "nope") 5
       = Err (ValueError (UnknownScope (lit "nope"))).
Proof.
  assert (Hb : blank (lit "  ")) by (repeat constructor).
  destruct (@search_blank_query ascii_lower root fs1 (lit "nope") (lit "  ") 5 Hb)
    as [H1 [H2 _]].
  split; [exact H1|]. apply H2.
  vm_compute. intros H.
  repeat (destruct H as [H | H]; [discriminate|]). exact H.
Defined.

(** *** The failures of [read_section] *)

Lemma read_section_failures_witness :
  read_section root fs_ten (lit "missing.md") 1 None 80
    = Err (FileNotFoundError (lit "missing.md"))
  /\ read_section root fs_ten unified_md 25 None 80
       = Err (ValueError (StartBeyondEnd 25 10))
  /\ read_section root fs_ten unified_md 5 (Some 3) 80
       = Err (ValueError EndBeforeStart)
  /\ read_section root fs_empty unified_md (-3) None 80
       = Err (ValueError (StartBeyondEnd 1 0)).
Proof.
  split; [|split; [|split]].
  - apply (proj1 (@read_section_failures root fs_ten (lit "missing.md") 1 None 80)).
    reflexivity.
  - destruct (@read_section_failures root fs_ten unified_md 25 None 80)
      as [_ [H _]].
    destruct (H (nl ["l1"; "l2"; "l3"; "l4"; "l5"; "l6"; "l7"; "l8"; "l9"; "l10"]%string)
                eq_refl eq_refl) as [Hs _].
    apply Hs. vm_compute. reflexivity.
  - destruct (@read_section_failures root fs_ten unified_md 5 (Some 3) 80)
      as [_ [H _]].
    destruct (H (nl ["l1"; "l2"; "l3"; "l4"; "l5"; "l6"; "l7"; "l8"; "l9"; "l10"]%string)
                eq_refl eq_refl) as [_ [_ He]].
    apply (He 3 eq_refl); vm_compute; [reflexivity | discriminate].
  - destruct (@read_section_failures root fs_empty unified_md (-3) None 80)
      as [_ [H _]].
    destruct (H [] eq_refl eq_refl) as [Hs _].
    apply Hs. vm_compute. reflexivity.
Defined.

(** C7, the failing input. The combined file of [fs_empty] exists and
    has no line. A requested start line of -3 is clamped to 1, which
    exceeds the line count 0; the error names line 1, and the requested
    line -3 occurs nowhere in its message. *)
Theorem read_section_clamped_start_counterexample :
  exists_ fs_empty (docs_path root unified_md) = true
  /\ read_text fs_empty (docs_path root unified_md) = Some []
  /\ len (splitlines []) = 0
  /\ read_section root fs_empty unified_md (-3) None 80
       = Err (ValueError (StartBeyondEnd 1 0))
  /\ message (ValueError (StartBeyondEnd 1 0))
       = lit "start_line 1 is beyond end of file (file has 0 lines)"
  /\ contains (of_Z (-3)) (message (ValueError (StartBeyondEnd 1 0))) = false
  /\ message (ValueError (StartBeyondEnd 1 0))
       <> message (ValueError (StartBeyondEnd (-3) 0)).
Proof.
  repeat split. vm_compute. discriminate.
Qed.

(** [readSection(file, 25)] on a twenty-line file names 20; here a
    ten-line file and 10. *)
Example read_section_message :
  message (ValueError (StartBeyondEnd 25 10))
    = lit "start_line 25 is beyond end of file (file has 10 lines)".
Proof. reflexivity. Qed.

Example read_section_5_10 :
  read_section root fs_ten unified_md 5 (Some 10) 80
    = Ok {| sec_file := unified_md;
            sec_start_line := 5;
            sec_end_line := 10;
            sec_content := nl ["l5"; "l6"; "l7"; "l8"; "l9"; "l10"];
            sec_line_count := 6 |}.
Proof. reflexivity. Qed.

Example read_section_window :
  read_section root fs_ten unified_md 8 None 5
    = Ok {| sec_file := unified_md;
            sec_start_line := 8;
            sec_end_line := 10;
            sec_content := nl ["l8"; "l9"; "l10"];
            sec_line_count := 3 |}.
Proof. reflexivity. Qed.

(** *** The search *)

(** With [limit = 0] the search returns two hits. *)
Lemma search_limit_zero_counterexample :
  exists hits,
    search_scope ascii_lower root fs1 (lit "unified") (lit "TEXT") 0 = Ok hits
    /\ hits = [ {| hit_file := unified_md; hit_line := 2;
                   hit_snippet := lit "Some Text here" |};
                {| hit_file := unified_md; hit_line := 4;
                   hit_snippet := lit "text again" |} ]
    /\ ~ (len hits <= 0).
Proof.
  eexists. split; [reflexivity|]. split; [reflexivity|].
  vm_compute. intros H. apply H. reflexivity.
Defined.

Lemma search_scope_hits_witness :
  exists hits,
    search_scope ascii_lower root fs1 (lit "unified") (lit "TEXT") 1 = Ok hits
    /\ len hits <= effective_limit 1
    /\ forall h, In h hits ->
         exists p text,
           In p [unified]
           /\ read_text fs1 p = Some text
           /\ hit_of_line ascii_lower root p (lit "TEXT") (splitlines text) h.
Proof.
  destruct (@search_scope_hits ascii_lower root fs1 (lit "unified") (lit "TEXT") 1)
    as [files [Hf [Htot Hhits]]].
  - apply scope_known. simpl. tauto.
  - discriminate.
  - assert (Hfiles : files = [unified]).
    { vm_compute in Hf. injection Hf as <-. reflexivity. }
    subst files.
    destruct Htot as [hits Hs].
    + repeat constructor. discriminate.
    + exists hits. split; [exact Hs|]. apply Hhits. exact Hs.
Defined.

(** The API folder is listed as [b.md], [a.md], and the hits come in
    that order, not in the ascending order of the paths. *)
Lemma search_order_counterexample :
  exists hits,
    search_scope ascii_lower root fs1 (lit "api") (lit "text") 20 = Ok hits
    /\ hits = [ {| hit_file := api_b_md; hit_line := 2;
                   hit_snippet := lit "more Text" |};
                {| hit_file := api_a_md; hit_line := 1;
                   hit_snippet := lit "alpha text" |} ]
    /\ ~ file_order hits.
Proof.
  eexists. split; [reflexivity|]. split; [reflexivity|].
  intros H. inversion H as [|h hs _ Hall]; subst.
  inversion Hall as [|h' hs' Hle _]; subst.
  vm_compute in Hle. discriminate.
Defined.

Lemma search_scope_order_witness :
  exists roots visited rest per_file,
    dict_get (lit "api") (SCOPE_PATHS root) = Some roots
    /\ get_files_for_scope root fs1 (lit "api") = Ok (visited ++ rest)%list
    /\ (visited ++ rest)%list = flat_map (root_files fs1) roots
    /\ Forall2 (fun f hs =>
                  search_in_file ascii_lower root fs1 f (lit "text") = Ok hs
                  /\ Forall (fun h => hit_file h = rel_str root f) hs
                  /\ line_order hs) visited per_file
    /\ [ {| hit_file := api_b_md; hit_line := 2; hit_snippet := lit "more Text" |};
         {| hit_file := api_a_md; hit_line := 1; hit_snippet := lit "alpha text" |} ]
       = firstn (Z.to_nat (effective_limit 20)) (List.concat per_file).
Proof.
  apply (@search_scope_order ascii_lower root fs1 (lit "api") (lit "text") 20).
  - apply scope_known. simpl. tauto.
  - discriminate.
  - reflexivity.
Defined.

(** The listing tool on the same folder is sorted. *)
Example list_files_api :
  list_openai_doc_files root fs1 (lit "api") = Ok [api_a_md; api_b_md].
Proof. reflexivity. Qed.


(** *** The line window of [read_section] *)

(** C2, the failing input. On a ten-line file, [start_line = 2] with no
    end line and [max_lines = -5] gives the bound
    [min(2 - 1 - 5, 10) = -4]: [read_section] reports [end_line = -4]
    and, the slice bound counting from the end of the file, returns the
    five lines 2 to 6, where the range from line 2 to line -4 holds no
    line. *)
Theorem read_section_negative_window :
  splitlines (nl ["l1"; "l2"; "l3"; "l4"; "l5"; "l6"; "l7"; "l8"; "l9"; "l10"])
    = ten_lines
  /\ read_section root fs_ten unified_md 2 None (-5)
       = Ok {| sec_file := unified_md;
               sec_start_line := 2;
               sec_end_line := -4;
               sec_content := nl ["l2"; "l3"; "l4"; "l5"; "l6"];
               sec_line_count := 5 |}
  /\ lines_in_range ten_lines 2 (Z.min (2 - 1 + -5) (len ten_lines)) = [].
Proof. repeat split. Qed.

(** *** The header extractor *)

Example guide_lines_read :
  read_text fs1 (truediv root (of_str unified_md))
    = Some (nl ["# Guide"; "Some Text here"; "#"; "  text again  ";
                "## Intro "; "body"])
  /\ splitlines (nl ["# Guide"; "Some Text here"; "#"; "  text again  ";
                     "## Intro "; "body"]) = guide_lines.
Proof. split; reflexivity. Qed.

(** A line that is only [#] ends the section of [# Guide], though it is
    no heading line: no heading line of level 1 follows [# Guide], and
    the section so specified runs to the end of the file. *)
Lemma section_end_counterexample :
  find_header ascii_lower (ascii_lower (strip (lit "Guide"))) None 0 guide_lines
    = Some (0%nat, 1%nat)
  /\ heading_of (lit "#") = None
  /\ section_until (heading_at_most 1) guide_lines 0 = guide_lines
  /\ exists s,
       _extract_section_by_header_from_file ascii_lower root fs1 unified_md
         (lit "Guide") None (Some 200) = Ok (Some s)
       /\ sec_content s = nl ["# Guide"; "Some Text here"]
       /\ sec_end_line s = 2
       /\ sec_content s
            <> join_lines (truncate (Some 200)
                             (section_until (heading_at_most 1) guide_lines 0)).
Proof.
  split; [reflexivity|]. split; [reflexivity|]. split; [reflexivity|].
  eexists. split; [reflexivity|]. split; [reflexivity|]. split; [reflexivity|].
  vm_compute. discriminate.
Defined.

Lemma section_extent_witness :
  exists s,
    _extract_section_by_header_from_file ascii_lower root fs1 unified_md
      (lit "Guide") None (Some 200) = Ok (Some s)
    /\ sec_start_line s = Z.of_nat 0 + 1
    /\ sec_content s =
         join_lines (truncate (Some 200)
                       (section_until (ends_section 1)
                          (splitlines (join_lines guide_lines)) 0))
    /\ sec_end_line s =
         Z.of_nat 0
         + len (truncate (Some 200)
                  (section_until (ends_section 1)
                     (splitlines (join_lines guide_lines)) 0))
    /\ (forall m, Some 200 = Some m ->
          len (truncate (Some 200)
                 (section_until (ends_section 1)
                    (splitlines (join_lines guide_lines)) 0)) <= m)
    /\ (forall m, Some 200 = Some m ->
          len (section_until (ends_section 1)
                 (splitlines (join_lines guide_lines)) 0) <= m ->
          truncate (Some 200)
            (section_until (ends_section 1)
               (splitlines (join_lines guide_lines)) 0)
          = section_until (ends_section 1)
              (splitlines (join_lines guide_lines)) 0).
Proof.
  apply (@section_extent ascii_lower root fs1 unified_md (lit "Guide") None
           (Some 200) (join_lines guide_lines) 0%nat 1%nat).
  - reflexivity.
  - reflexivity.
  - reflexivity.
  - intros m H. injection H as <-. lia.
Defined.

(** C4, the failing input. Line 5 of the file is [## Intro ] with a space
    at its end. Its visible text, trimmed, equals the header [Intro], at
    level 2; the extractor compares the text trimmed on the left only,
    finds no match, with or without the level, and returns nothing. *)
Theorem header_trailing_space_unmatched :
  nth_error guide_lines 4 = Some (lit "## Intro ")
  /\ visible_text (lit "## Intro ") = Some (2%nat, lit " Intro ")
  /\ claimed_match ascii_lower (lit "Intro") None (lit "## Intro ") = true
  /\ claimed_match ascii_lower (lit "Intro") (Some 2) (lit "## Intro ") = true
  /\ header_match ascii_lower (ascii_lower (strip (lit "Intro"))) None
       (lit "## Intro ") = None
  /\ _extract_section_by_header_from_file ascii_lower root fs1 unified_md
       (lit "Intro") None (Some 200) = Ok None
  /\ _extract_section_by_header_from_file ascii_lower root fs1 unified_md
       (lit "Intro") (Some 2) (Some 200) = Ok None.
Proof. repeat split. Qed.

(** Without the trailing space the same header is found. *)
Example header_found :
  extract_section_from_lines ascii_lower unified_md
    (List.map lit ["# Guide"; "## Intro"; "body"; "### Deeper"; "more"; "## Next"])
    (lit "  intro ") (Some 2) (Some 200)
  = Some {| sec_file := unified_md;
            sec_start_line := 2;
            sec_end_line := 5;
            sec_content := nl ["## Intro"; "body"; "### Deeper"; "more"];
            sec_line_count := 4 |}.
Proof. reflexivity. Qed.

(** Two slices of [fs1]'s combined file with at most three lines: the
    window that starts at line 2, and the section under [Guide], which
    the level-1 line [#] ends after two lines. *)
Lemma section_slice_invariant_witness :
  (read_section root fs1 unified_md 2 None 3
     = Ok {| sec_file := unified_md;
             sec_start_line := 2;
             sec_end_line := 4;
             sec_content := nl ["Some Text here"; "#"; "  text again  "];
             sec_line_count := 3 |}
   /\ slice_invariant guide_lines
        {| sec_file := unified_md;
           sec_start_line := 2;
           sec_end_line := 4;
           sec_content := nl ["Some Text here"; "#"; "  text again  "];
           sec_line_count := 3 |})
  /\ (_extract_section_by_header_from_file ascii_lower root fs1 unified_md
        (lit "Guide") None (Some 3)
      = Ok (Some {| sec_file := unified_md;
                    sec_start_line := 1;
                    sec_end_line := 2;
                    sec_content := nl ["# Guide"; "Some Text here"];
                    sec_line_count := 2 |})
      /\ slice_invariant guide_lines
           {| sec_file := unified_md;
              sec_start_line := 1;
              sec_end_line := 2;
              sec_content := nl ["# Guide"; "Some Text here"];
              sec_line_count := 2 |}).
Proof.
  assert (Hmax : 1 <= 3) by lia.
  destruct (@section_slice_invariant ascii_lower root fs1 3 Hmax) as [Hread Hhead].
  split.
  - assert (Hr : read_section root fs1 unified_md 2 None 3
                 = Ok {| sec_file := unified_md;
                         sec_start_line := 2;
                         sec_end_line := 4;
                         sec_content := nl ["Some Text here"; "#"; "  text again  "];
                         sec_line_count := 3 |}) by reflexivity.
    split; [exact Hr|].
    destruct (Hread unified_md 2 None _ Hr) as [text [Ht Hinv]].
    vm_compute in Ht. injection Ht as <-. exact Hinv.
  - assert (Hx : _extract_section_by_header_from_file ascii_lower root fs1
                   unified_md (lit "Guide") None (Some 3)
                 = Ok (Some {| sec_file := unified_md;
                               sec_start_line := 1;
                               sec_end_line := 2;
                               sec_content := nl ["# Guide"; "Some Text here"];
                               sec_line_count := 2 |})) by reflexivity.
    split; [exact Hx|].
    destruct (Hhead unified_md (lit "Guide") None _ Hx) as [text [Ht Hinv]].
    vm_compute in Ht. injection Ht as <-. exact Hinv.
Defined.

(** *** The last-update report *)

(** C9, the failing input. The walk meets one Markdown file, last
    modified at the epoch; its time is not greater than the initial
    [0.0], and the report is that of the repository root. *)
Theorem last_update_epoch_file :
  all_candidates root fs_epoch = [unified]
  /\ st_mtime fs_epoch unified = Some 0%Q
  /\ get_last_update_metadata root fs_epoch
       = Ok {| repo_root := lit "/repo";
               last_modified_unix := 9%Q;
               last_modified_file := lit "." |}.
Proof. repeat split. Qed.

Example last_update_fs1 :
  get_last_update_metadata root fs1
    = Ok {| repo_root := lit "/repo";
            last_modified_unix := 7%Q;
            last_modified_file := unified_md |}.
Proof. reflexivity. Qed.

End Worked.

(* ================================================================== *)
(** * Further worked examples *)
(* ================================================================== *)

Module WorkedMore.
Import Str Py Path DocsIndex DocsTools Spec Example ExampleMore.
Import StrFacts DocsFacts PathFacts SortFacts ToolsFacts Worked.
Local Open Scope string_scope.

(** *** Scopes *)

Lemma nope_unknown : ~ In (lit "nope") SCOPES.
Proof.
  vm_compute. intros H.
  repeat (destruct H as [H | H]; [discriminate|]). exact H.
Qed.

Lemma unknown_scope_rejected_witness :
  get_files_for_scope root fs1 (lit "nope")
    = Err (ValueError (UnknownScope (lit "nope")))
  /\ list_openai_doc_files root fs1 (lit "nope")
       = Err (ValueError (UnknownScope (lit "nope")))
  /\ search_scope ascii_lower root fs1 (lit "nope") (lit "text") 5
       = Err (ValueError (UnknownScope (lit "nope")))
  /\ get_openai_doc_section_by_header ascii_lower root fs1 (lit "Guide")
       (lit "nope") None (Some 200)
       = Err (ValueError (UnknownScope (lit "nope"))).
Proof.
  destruct (@SearchMore.unknown_scope_rejected ascii_lower root fs1 (lit "nope")
              nope_unknown) as [H1 [H2 [H3 [_ H5]]]].
  split; [exact H1|]. split; [exact H2|]. split; [|apply H5].
  apply H3. reflexivity.
Defined.

(** *** The search *)

Lemma search_scope_error_witness :
  In (lit "api") SCOPES
  /\ search_scope ascii_lower root fs_locked (lit "api") (lit "text") 20
       = Err (OSError api_a).
Proof.
  assert (Hs : In (lit "api") SCOPES) by (apply scope_known; simpl; tauto).
  split; [exact Hs|].
  destruct (@SearchMore.search_scope_error ascii_lower root fs_locked (lit "api")
              (lit "text") 20 Hs) as [roots [Hg H]].
  assert (Hr : roots = [api]) by (vm_compute in Hg; injection Hg as <-; reflexivity).
  subst roots.
  apply (proj2 (H (OSError api_a))). split; [reflexivity|].
  exists [api_b], api_a, [],
    [[ {| hit_file := api_b_md; hit_line := 2; hit_snippet := lit "more Text" |} ]].
  split; [reflexivity|]. split; [|split; [|split]]; try reflexivity.
  constructor; [reflexivity | constructor].
Defined.

(** With a limit of one the hit of [b.md] ends the scan before [a.md]:
    the unreadable file is not reached and the search succeeds. *)
Example search_stops_before_unreadable :
  search_scope ascii_lower root fs_locked (lit "api") (lit "text") 1
    = Ok [ {| hit_file := api_b_md; hit_line := 2; hit_snippet := lit "more Text" |} ].
Proof. reflexivity. Qed.

Lemma search_scope_complete_witness :
  exists roots,
    dict_get (lit "api") (SCOPE_PATHS root) = Some roots
    /\ forall p text k line,
         In p (flat_map (root_files fs1) roots) ->
         read_text fs1 p = Some text ->
         nth_error (splitlines text) k = Some line ->
         is_substring (ascii_lower (lit "text")) (ascii_lower line) ->
         In {| hit_file := rel_str root p;
               hit_line := Z.of_nat k + 1;
               hit_snippet := strip line |}
            [ {| hit_file := api_b_md; hit_line := 2;
                 hit_snippet := lit "more Text" |};
              {| hit_file := api_a_md; hit_line := 1;
                 hit_snippet := lit "alpha text" |} ].
Proof.
  apply (@SearchMore.search_scope_complete ascii_lower root fs1 (lit "api")
           (lit "text") 20).
  - apply scope_known. simpl. tauto.
  - reflexivity.
  - reflexivity.
  - vm_compute. reflexivity.
Defined.

Lemma search_scope_limit_prefix_witness :
  search_scope ascii_lower root fs1 (lit "api") (lit "text") 1
    = Ok (firstn (Z.to_nat 1)
            [ {| hit_file := api_b_md; hit_line := 2;
                 hit_snippet := lit "more Text" |};
              {| hit_file := api_a_md; hit_line := 1;
                 hit_snippet := lit "alpha text" |} ]).
Proof.
  apply (@SearchMore.search_scope_limit_prefix ascii_lower root fs1 (lit "api")
           (lit "text") 1 20).
  - lia.
  - reflexivity.
Defined.

Lemma search_openai_docs_bound_witness :
  len [ {| hit_file := unified_md; hit_line := 2;
           hit_snippet := lit "Some Text here" |};
        {| hit_file := unified_md; hit_line := 4;
           hit_snippet := lit "text again" |} ]
    <= (if (0 <=? 0)%Z then 10 else 0).
Proof.
  apply (@ApiMore.search_openai_docs_bound ascii_lower root fs1 (lit " TEXT ")
           (lit "unified") 0).
  reflexivity.
Defined.

(** The tool finds with [" TEXT "] what [search_scope] finds with
    ["TEXT"]; [search_scope] itself keeps the spaces of the query. *)
Example search_scope_keeps_spaces :
  search_scope ascii_lower root fs1 (lit "unified") (lit " text ") 10
    = Ok [ {| hit_file := unified_md; hit_line := 2;
              hit_snippet := lit "Some Text here" |};
           {| hit_file := unified_md; hit_line := 4;
              hit_snippet := lit "text again" |} ]
  /\ search_scope ascii_lower root fs1 (lit "unified") (lit " some") 10 = Ok [].
Proof. split; reflexivity. Qed.

(** *** [read_section] *)

Example ten_lines_read :
  exists_ fs_ten (docs_path root unified_md) = true
  /\ read_text fs_ten (docs_path root unified_md) = Some (join_lines ten_lines)
  /\ splitlines (join_lines ten_lines) = ten_lines.
Proof. repeat split. Qed.

Lemma read_section_returns_range_witness :
  exists s,
    read_section root fs_ten unified_md 8 None 5 = Ok s
    /\ sec_start_line s = 8
    /\ sec_end_line s = Z.min (8 - 1 + 5) (len (splitlines (join_lines ten_lines)))
    /\ sec_content s =
         join_lines (lines_in_range (splitlines (join_lines ten_lines)) 8
                       (Z.min (8 - 1 + 5) (len (splitlines (join_lines ten_lines)))))
    /\ sec_line_count s =
         Z.min (8 - 1 + 5) (len (splitlines (join_lines ten_lines))) - 8 + 1
    /\ len (lines_in_range (splitlines (join_lines ten_lines)) 8
              (Z.min (8 - 1 + 5) (len (splitlines (join_lines ten_lines)))))
       = sec_line_count s.
Proof.
  apply (@ApiMore.read_section_returns_range root fs_ten unified_md 8 None 5
           (join_lines ten_lines)).
  - reflexivity.
  - reflexivity.
  - vm_compute. split; discriminate.
  - lia.
Defined.


Lemma read_section_adjacent_witness :
  exists s1 s2 s,
    read_section root fs_ten unified_md 2 (Some 4) 80 = Ok s1
    /\ read_section root fs_ten unified_md (4 + 1) (Some 7) 80 = Ok s2
    /\ read_section root fs_ten unified_md 2 (Some 7) 80 = Ok s
    /\ sec_content s = (sec_content s1 ++ [LF] ++ sec_content s2)%list
    /\ sec_line_count s = sec_line_count s1 + sec_line_count s2
    /\ sec_start_line s = sec_start_line s1
    /\ sec_end_line s = sec_end_line s2.
Proof.
  apply (@SectionMore.read_section_adjacent root fs_ten unified_md 2 4 7 80
           (join_lines ten_lines)).
  - reflexivity.
  - reflexivity.
  - lia.
  - lia.
  - vm_compute. discriminate.
Defined.

Lemma read_section_content_lines_witness :
  splitlines (nl ["l5"; "l6"; "l7"; "l8"; "l9"; "l10"])
    = List.map lit ["l5"; "l6"; "l7"; "l8"; "l9"; "l10"]
  /\ len (splitlines (nl ["l5"; "l6"; "l7"; "l8"; "l9"; "l10"])) = 6.
Proof.
  destruct (@SectionMore.read_section_content_lines root fs_ten unified_md 5
              (Some 10) 80
              {| sec_file := unified_md;
                 sec_start_line := 5;
                 sec_end_line := 10;
                 sec_content := nl ["l5"; "l6"; "l7"; "l8"; "l9"; "l10"];
                 sec_line_count := 6 |})
    as [text [Ht H]].
  - lia.
  - reflexivity.
  - assert (text = join_lines ten_lines).
    { vm_compute in Ht. injection Ht as <-. reflexivity. }
    subst text. cbv zeta in H. apply H. vm_compute. discriminate.
Defined.

(** The content of a slice that ends on an empty line splits into one
    line fewer. *)
Example content_ending_on_empty_line :
  splitlines (join_lines [lit "a"; lit ""]) = [lit "a"].
Proof. reflexivity. Qed.

(** *** External paths *)

Lemma rel_str_round_trip_witness :
  truediv root (of_str (rel_str root api_a)) = api_a
  /\ docs_path root (rel_str root api_a) = api_a.
Proof.
  apply (@SectionMore.rel_str_round_trip root api_a).
  - reflexivity.
  - apply (proj2 (normalize_wf api_a)).
Defined.

(** *** The header extractor and the header tool *)

Lemma extract_section_nothing_witness :
  _extract_section_by_header_from_file ascii_lower root fs1 (lit "missing.md")
    (lit "Guide") None (Some 200) = Ok None
  /\ _extract_section_by_header_from_file ascii_lower root fs_locked api_a_md
       (lit "Guide") None (Some 200) = Err (OSError api_a)
  /\ _extract_section_by_header_from_file ascii_lower root fs1 unified_md
       (lit "Absent") None (Some 200) = Ok None.
Proof.
  split; [|split].
  - apply (proj1 (@ToolsMore.extract_section_nothing ascii_lower root fs1
                    (lit "missing.md") (lit "Guide") None (Some 200))).
    reflexivity.
  - destruct (@ToolsMore.extract_section_nothing ascii_lower root fs_locked
                api_a_md (lit "Guide") None (Some 200)) as [_ [H _]].
    apply H; reflexivity.
  - destruct (@ToolsMore.extract_section_nothing ascii_lower root fs1
                unified_md (lit "Absent") None (Some 200)) as [_ [_ H]].
    apply (H (join_lines guide_lines) eq_refl eq_refl).
    vm_compute. repeat constructor.
Defined.

Lemma extract_section_body_witness :
  exists heading body level,
    nl ["## Intro"; "body"; "### Deeper"; "more"] = join_lines (heading :: body)
    /\ nth_error (List.map lit ["# Guide"; "## Intro"; "body"; "### Deeper";
                                "more"; "## Next"])
         (Z.to_nat (2 - 1)) = Some heading
    /\ header_match ascii_lower (ascii_lower (strip (lit "  intro "))) (Some 2)
         heading = Some level
    /\ (forall l, Some 2 = Some l -> Z.of_nat level = l)
    /\ Forall (fun l => header_match ascii_lower
                          (ascii_lower (strip (lit "  intro "))) (Some 2) l = None)
         (firstn (Z.to_nat (2 - 1))
            (List.map lit ["# Guide"; "## Intro"; "body"; "### Deeper";
                           "more"; "## Next"]))
    /\ Forall (fun l => ends_section level l = false) body.
Proof.
  apply (@ToolsMore.extract_section_body ascii_lower unified_md (lit "  intro ")
           (Some 2) 200
           (List.map lit ["# Guide"; "## Intro"; "body"; "### Deeper"; "more";
                          "## Next"])
           {| sec_file := unified_md;
              sec_start_line := 2;
              sec_end_line := 5;
              sec_content := nl ["## Intro"; "body"; "### Deeper"; "more"];
              sec_line_count := 4 |}).
  - lia.
  - reflexivity.
Defined.

Lemma section_by_header_found_witness :
  In (lit "unified") SCOPES
  /\ exists pre m post,
       search_scope ascii_lower root fs1 (lit "unified") (lit "Guide") 8
         = Ok (pre ++ m :: post)%list
       /\ len (pre ++ m :: post)%list <= 8
       /\ _extract_section_by_header_from_file ascii_lower root fs1 (hit_file m)
            (lit "Guide") None (Some 200)
          = Ok (Some {| sec_file := unified_md;
                        sec_start_line := 1;
                        sec_end_line := 2;
                        sec_content := nl ["# Guide"; "Some Text here"];
                        sec_line_count := 2 |})
       /\ unified_md = hit_file m
       /\ Forall (fun h =>
                    hit_file h = []
                    \/ _extract_section_by_header_from_file ascii_lower root fs1
                         (hit_file h) (lit "Guide") None (Some 200) = Ok None) pre.
Proof.
  apply (@ToolsMore.section_by_header_found ascii_lower root fs1 (lit "Guide")
           (lit "unified") None (Some 200)).
  reflexivity.
Defined.

(** The heading [# Intro] is in [b.md], and the extractor finds it
    there; the eight hits of the search are all in [a.md], and the tool
    reports that no such heading is in the scope. *)
Lemma section_by_header_not_found_witness :
  _extract_section_by_header_from_file ascii_lower root fs_far api_b_md
    (lit "Intro") None (Some 200)
    = Ok (Some {| sec_file := api_b_md;
                  sec_start_line := 1;
                  sec_end_line := 2;
                  sec_content := nl ["# Intro"; "the section"];
                  sec_line_count := 2 |})
  /\ get_openai_doc_section_by_header ascii_lower root fs_far (lit "Intro")
       (lit "api") None (Some 200)
     = Err (ValueError (HeaderNotFound (lit "Intro") None (lit "api"))).
Proof.
  split; [reflexivity|].
  destruct (@ToolsMore.section_by_header_not_found ascii_lower root fs_far
              (lit "Intro") (lit "api") None (Some 200)
              (List.map (fun k => {| hit_file := api_a_md; hit_line := k;
                                     hit_snippet :=
                                       match k with
                                       | 1 => lit "see intro"
                                       | 2 => lit "the intro"
                                       | _ => (lit "intro " ++ of_Z k)%list
                                       end |})
                        [1; 2; 3; 4; 5; 6; 7; 8]))
    as [[_ H] _].
  - apply scope_known. simpl. tauto.
  - reflexivity.
  - apply H. repeat (constructor; [right; reflexivity|]). constructor.
Defined.

(** *** The listing and the last-update report *)

Lemma fs1_file_or_dir (p : path) : is_file fs1 p = true -> is_dir fs1 p = false.
Proof.
  simpl. intros H.
  destruct (Path.eqb p unified) eqn:E1.
  { apply path_eqb_eq in E1. subst p. reflexivity. }
  destruct (Path.eqb p api_a) eqn:E2.
  { apply path_eqb_eq in E2. subst p. reflexivity. }
  destruct (Path.eqb p api_b) eqn:E3.
  { apply path_eqb_eq in E3. subst p. reflexivity. }
  simpl in H. discriminate.
Qed.

Lemma listing_covers_search_witness :
  In (rel_str root (resolve fs1 api_b)) [api_a_md; api_b_md]
  /\ In (rel_str root (resolve fs1 api_a)) [api_a_md; api_b_md].
Proof.
  split;
    apply (@ToolsMore.listing_covers_search root fs1 (lit "api")
             [api_b; api_a] [api_a_md; api_b_md] fs1_file_or_dir
             eq_refl eq_refl);
    simpl; tauto.
Defined.



(** *** Paths that start with slashes *)

(** Two leading slashes are a root of their own, three are the root [/]:
    a file given as [//repo/x.md] is not under [/repo] and keeps its
    string, [///repo/x.md] is [x.md] under [/repo]. *)
Example double_slash_root :
  to_str (of_str (lit "//repo/x.md")) = lit "//repo/x.md"
  /\ rel_str root (docs_path root (lit "//repo/x.md")) = lit "//repo/x.md"
  /\ to_str (of_str (lit "///repo/x.md")) = lit "/repo/x.md"
  /\ rel_str root (docs_path root (lit "///repo/x.md")) = lit "x.md"
  /\ to_str (of_str (lit "//")) = lit "//"
  /\ Path.eqb (of_str (lit "//repo")) (of_str (lit "/repo")) = false.
Proof. repeat split. Qed.

End WorkedMore.
